(** * GHL MCP server: registry, tenant resolution, HTTP facade and tool handlers

    A shallow embedding of the Cloudflare worker (index.ts, version 2.0.0,
    together with the bulk handler of version 1.0.0) and of ghl-client.ts.

    - The D1 table [sub_accounts] is a list of rows in rowid order.
    - Asynchronous code that may reject is a state-and-exception monad over
      a [World]: the table, a schedule of database faults, the clock read
      by [datetime('now')], and the upstream REST API as an oracle together
      with the log of the requests sent so far.
    - A JavaScript [Error] is represented by its [message]. *)

From Stdlib Require Import String Ascii List ZArith Lia Bool DecimalString.
From Stdlib Require Import Sorting.Permutation Sorting.Sorted.
Import ListNotations.
Open Scope string_scope.

Set Warnings "-register-all".

(* ================================================================== *)
(** * JavaScript values *)
(* ================================================================== *)

(** [x || d] on an optional string: [undefined] and the empty string are
    falsy. *)
Definition truthy (x : option string) : bool :=
  match x with
  | Some (String _ _) => true
  | _ => false
  end.

Definition or_else (x : option string) (d : string) : string :=
  match x with
  | Some (String c s) => String c s
  | _ => d
  end.

(** JSON documents; numbers are restricted to integers. *)
Inductive Json : Type :=
| JNull
| JBool (b : bool)
| JNum (z : Z)
| JStr (s : string)
| JArr (items : list Json)
| JObj (members : list (string * Json)).

(** An object literal whose [undefined] members are dropped, as
    [JSON.stringify] does. *)
Fixpoint members_of (l : list (string * option Json)) : list (string * Json) :=
  match l with
  | [] => []
  | (k, Some v) :: r => (k, v) :: members_of r
  | (_, None) :: r => members_of r
  end.

Definition object (l : list (string * option Json)) : Json :=
  JObj (members_of l).

(** Truthiness of a request body ([options?.body ? ... : undefined]). *)
Definition js_truthy (j : Json) : bool :=
  match j with
  | JNull => false
  | JBool b => b
  | JNum z => negb (Z.eqb z 0)
  | JStr s => negb (String.eqb s "")
  | JArr _ => true
  | JObj _ => true
  end.

Definition dq : string := String "034"%char "".
Definition nl : string := String "010"%char "".

(** Template-literal rendering of an integer. *)
Definition string_of_Z (z : Z) : string := NilZero.string_of_int (Z.to_int z).
Definition string_of_nat (n : nat) : string := NilZero.string_of_uint (Nat.to_uint n).

(* ================================================================== *)
(** * Data model *)
(* ================================================================== *)

Record Env := mkEnv {
  GHL_API_KEY : string;
  GHL_LOCATION_ID : string
}.

(** A row of [sub_accounts]. *)
Record SubAccount := mkSubAccount {
  id : string;
  name : string;
  api_key : string;
  account_type : string;
  is_default : Z;
  notes : option string;
  created_at : string;
  updated_at : string
}.

Record GHLClient := mkGHLClient {
  apiKey : string;
  locationId : string
}.

(** What [fetch] is called with. [url] is base URL and path; the query
    string is kept as the list of [searchParams]; [body] stands for the
    JSON text of the value. *)
Record Request := mkRequest {
  method : string;
  url : string;
  searchParams : list (string * string);
  headers : list (string * string);
  body : option Json
}.

(** A [Response]: [json] is what [resp.json()] resolves to, or the message
    of the error it rejects with. *)
Record Response := mkResponse {
  status : Z;
  statusText : string;
  text : string;
  json : string + Json
}.

Definition ok (r : Response) : bool :=
  (200 <=? status r)%Z && (status r <=? 299)%Z.

Inductive HttpReply : Type :=
| NetworkFailure (message : string)
| Replied (r : Response).

Record ToolResponse := mkToolResponse {
  content : string;
  isError : bool
}.

(* ================================================================== *)
(** * The world and the monad of asynchronous computations *)
(* ================================================================== *)

Record World := mkWorld {
  table : list SubAccount;
  db_faults : list (option string);
  clock : string;
  http_log : list Request;
  upstream : list Request -> Request -> HttpReply
}.

Definition set_table (t : list SubAccount) (w : World) : World :=
  mkWorld t (db_faults w) (clock w) (http_log w) (upstream w).

Definition set_db_faults (f : list (option string)) (w : World) : World :=
  mkWorld (table w) f (clock w) (http_log w) (upstream w).

Definition set_http_log (l : list Request) (w : World) : World :=
  mkWorld (table w) (db_faults w) (clock w) l (upstream w).

Definition set_clock (c : string) (w : World) : World :=
  mkWorld (table w) (db_faults w) c (http_log w) (upstream w).

Inductive Outcome (A : Type) : Type :=
| Returned (a : A)
| Thrown (message : string).

Arguments Returned {A} a.
Arguments Thrown {A} message.

Definition M (A : Type) : Type := World -> Outcome A * World.

Definition ret {A} (a : A) : M A := fun w => (Returned a, w).

Definition throw {A} (message : string) : M A := fun w => (Thrown message, w).

Definition bind {A B} (c : M A) (k : A -> M B) : M B :=
  fun w =>
    match c w with
    | (Returned a, w') => k a w'
    | (Thrown e, w') => (Thrown e, w')
    end.

(** [try { body } catch (e) { handler }]: what [body] did to the world
    before it threw stays done. *)
Definition try_catch {A} (body : M A) (handler : string -> M A) : M A :=
  fun w =>
    match body w with
    | (Returned a, w') => (Returned a, w')
    | (Thrown e, w') => handler e w'
    end.

Declare Scope async_scope.
Delimit Scope async_scope with async.
Notation "x <- c ;; k" := (bind c (fun x => k))
  (at level 61, c at next level, right associativity) : async_scope.
Notation "c ;;; k" := (bind c (fun _ => k))
  (at level 61, right associativity) : async_scope.
Open Scope async_scope.

(* ================================================================== *)
(** * Database helpers *)
(* ================================================================== *)

(** One prepared statement run against D1. The head of the fault schedule
    decides whether it rejects; a rejected statement leaves the table
    alone. *)
Definition next_fault (w : World) : option string :=
  match db_faults w with
  | Some e :: _ => Some e
  | _ => None
  end.

Definition advance (w : World) : World := set_db_faults (tl (db_faults w)) w.

Definition statement {A} (f : string -> list SubAccount -> A * list SubAccount) : M A :=
  fun w =>
    match next_fault w with
    | Some e => (Thrown e, advance w)
    | None =>
        let (a, t) := f (clock w) (table w) in
        (Returned a, set_table t (advance w))
    end.

Definition select {A} (f : list SubAccount -> A) : M A :=
  statement (fun _ t => (f t, t)).

Definition run (f : string -> list SubAccount -> list SubAccount) : M unit :=
  statement (fun now t => (tt, f now t)).

(** [CREATE TABLE IF NOT EXISTS sub_accounts (...)] *)
Definition initDb : M unit := run (fun _ t => t).

(** [SELECT * FROM sub_accounts WHERE is_default = 1 LIMIT 1] *)
Definition getDefaultAccount : M (option SubAccount) :=
  select (find (fun a => Z.eqb (is_default a) 1)).

(** [SELECT * FROM sub_accounts WHERE id = ?] *)
Definition getAccountById (l : string) : M (option SubAccount) :=
  select (find (fun a => String.eqb (id a) l)).

(** Priority: explicit locationId param > default account in DB > env vars *)
Definition resolveClient (env : Env) (l : option string) : M GHLClient :=
  initDb ;;;
  if truthy l then
    let l := or_else l "" in
    account <- getAccountById l ;;
    match account with
    | Some account => ret (mkGHLClient (api_key account) (id account))
    | None => ret (mkGHLClient (GHL_API_KEY env) l)
    end
  else
    defaultAccount <- getDefaultAccount ;;
    match defaultAccount with
    | Some a => ret (mkGHLClient (api_key a) (id a))
    | None => ret (mkGHLClient (GHL_API_KEY env) (GHL_LOCATION_ID env))
    end.

(* ================================================================== *)
(** * HTTP client facade (ghl-client.ts) *)
(* ================================================================== *)

Definition baseUrl : string := "https://services.leadconnectorhq.com".

(** A JavaScript object literal: members in insertion order, a member may
    be present and [undefined]. *)
Definition JsObject : Type := list (string * option Json).

Fixpoint obj_get (k : string) (o : JsObject) : option Json :=
  match o with
  | [] => None
  | (k', v) :: r => if String.eqb k' k then v else obj_get k r
  end.

(** [{...o, k: v}]: an existing key keeps its place. *)
Fixpoint obj_set (k : string) (v : Json) (o : JsObject) : JsObject :=
  match o with
  | [] => [(k, Some v)]
  | (k', v') :: r =>
      if String.eqb k' k then (k, Some v) :: r else (k', v') :: obj_set k v r
  end.

(** [data.locationId] at type [string | undefined]. *)
Definition locationId_of (data : JsObject) : option string :=
  match obj_get "locationId" data with
  | Some (JStr s) => Some s
  | _ => None
  end.

Record Options := mkOptions {
  obody : option Json;
  query : option (list (string * string));
  version : option string
}.

Definition headers_of (c : GHLClient) (v : option string) : list (string * string) :=
  let h := [("Authorization", "Bearer " ++ apiKey c);
            ("Content-Type", "application/json");
            ("Accept", "application/json")] in
  if truthy v then h ++ [("Version", or_else v "")] else h.

(** [url.searchParams.set(k, v)] *)
Fixpoint params_set (k v : string) (l : list (string * string)) : list (string * string) :=
  match l with
  | [] => [(k, v)]
  | (k', v') :: r =>
      if String.eqb k' k
      then (k, v) :: filter (fun p => negb (String.eqb (fst p) k)) r
      else (k', v') :: params_set k v r
  end.

(** [fetch]: the upstream answers from the history of requests; a network
    failure rejects. *)
Definition fetch (q : Request) : M Response :=
  fun w =>
    let w' := set_http_log (http_log w ++ [q]) w in
    match upstream w (http_log w) q with
    | NetworkFailure e => (Thrown e, w')
    | Replied r => (Returned r, w')
    end.

Definition request_of (c : GHLClient) (m path : string) (options : Options) : Request :=
  mkRequest m (baseUrl ++ path)
    (match query options with
     | Some q => fold_left (fun acc kv => params_set (fst kv) (snd kv) acc) q []
     | None => []
     end)
    (headers_of c (version options))
    (match obody options with
     | Some b => if js_truthy b then Some b else None
     | None => None
     end).

Definition request (c : GHLClient) (m path : string) (options : Options) : M Json :=
  resp <- fetch (request_of c m path options) ;;
  if negb (ok resp) then
    throw ("GHL API Error " ++ string_of_Z (status resp) ++ ": "
             ++ statusText resp ++ " - " ++ text resp)
  else
    match json resp with
    | inr j => ret j
    | inl e => throw e
    end.

Definition defaultLocationId (c : GHLClient) : string := locationId c.

Definition v2021 : option string := Some "2021-07-28".

(** ** Custom fields V2 (custom objects and company) *)

Definition getCustomFieldsByObjectKey (c : GHLClient) (objectKey : string)
    (l : option string) : M Json :=
  request c "GET" ("/custom-fields/object-key/" ++ objectKey)
    (mkOptions None (Some [("locationId", or_else l (locationId c))]) v2021).

Definition getCustomFieldById (c : GHLClient) (i : string) : M Json :=
  request c "GET" ("/custom-fields/" ++ i) (mkOptions None None v2021).

Definition located_body (c : GHLClient) (data : JsObject) : option Json :=
  Some (object (obj_set "locationId"
                  (JStr (or_else (locationId_of data) (locationId c))) data)).

Definition createCustomField (c : GHLClient) (data : JsObject) : M Json :=
  request c "POST" "/custom-fields/" (mkOptions (located_body c data) None v2021).

Definition updateCustomField (c : GHLClient) (i : string) (data : JsObject) : M Json :=
  request c "PUT" ("/custom-fields/" ++ i) (mkOptions (located_body c data) None v2021).

Definition deleteCustomField (c : GHLClient) (i : string) : M Json :=
  request c "DELETE" ("/custom-fields/" ++ i) (mkOptions None None v2021).

Definition createCustomFieldFolder (c : GHLClient) (data : JsObject) : M Json :=
  request c "POST" "/custom-fields/folder" (mkOptions (located_body c data) None v2021).

Definition updateCustomFieldFolder (c : GHLClient) (i : string) (data : JsObject) : M Json :=
  request c "PUT" ("/custom-fields/folder/" ++ i)
    (mkOptions (located_body c data) None v2021).

Definition deleteCustomFieldFolder (c : GHLClient) (i : string) (l : option string) : M Json :=
  request c "DELETE" ("/custom-fields/folder/" ++ i)
    (mkOptions None (Some [("locationId", or_else l (locationId c))]) v2021).

(** ** Location-level custom fields (contacts) *)

Definition getLocationCustomFields (c : GHLClient) (l : option string) : M Json :=
  let locId := or_else l (locationId c) in
  request c "GET" ("/locations/" ++ locId ++ "/customFields") (mkOptions None None v2021).

Definition getLocationCustomField (c : GHLClient) (fieldId : string)
    (l : option string) : M Json :=
  let locId := or_else l (locationId c) in
  request c "GET" ("/locations/" ++ locId ++ "/customFields/" ++ fieldId)
    (mkOptions None None v2021).

Definition createLocationCustomField (c : GHLClient) (data : JsObject)
    (l : option string) : M Json :=
  let locId := or_else l (locationId c) in
  request c "POST" ("/locations/" ++ locId ++ "/customFields")
    (mkOptions (Some (object data)) None v2021).

Definition updateLocationCustomField (c : GHLClient) (fieldId : string)
    (data : JsObject) (l : option string) : M Json :=
  let locId := or_else l (locationId c) in
  request c "PUT" ("/locations/" ++ locId ++ "/customFields/" ++ fieldId)
    (mkOptions (Some (object data)) None v2021).

Definition deleteLocationCustomField (c : GHLClient) (fieldId : string)
    (l : option string) : M Json :=
  let locId := or_else l (locationId c) in
  request c "DELETE" ("/locations/" ++ locId ++ "/customFields/" ++ fieldId)
    (mkOptions None None v2021).

(** ** Custom values *)

Definition getCustomValues (c : GHLClient) (l : option string) : M Json :=
  let locId := or_else l (locationId c) in
  request c "GET" ("/locations/" ++ locId ++ "/customValues") (mkOptions None None v2021).

Definition getCustomValue (c : GHLClient) (valueId : string) (l : option string) : M Json :=
  let locId := or_else l (locationId c) in
  request c "GET" ("/locations/" ++ locId ++ "/customValues/" ++ valueId)
    (mkOptions None None v2021).

Definition createCustomValue (c : GHLClient) (data : JsObject) (l : option string) : M Json :=
  let locId := or_else l (locationId c) in
  request c "POST" ("/locations/" ++ locId ++ "/customValues")
    (mkOptions (Some (object data)) None v2021).

Definition updateCustomValue (c : GHLClient) (valueId : string) (data : JsObject)
    (l : option string) : M Json :=
  let locId := or_else l (locationId c) in
  request c "PUT" ("/locations/" ++ locId ++ "/customValues/" ++ valueId)
    (mkOptions (Some (object data)) None v2021).

Definition deleteCustomValue (c : GHLClient) (valueId : string) (l : option string) : M Json :=
  let locId := or_else l (locationId c) in
  request c "DELETE" ("/locations/" ++ locId ++ "/customValues/" ++ valueId)
    (mkOptions None None v2021).

(* ================================================================== *)
(** * Name lookup: SQLite's LOWER and LIKE *)
(* ================================================================== *)

(** [LOWER] folds the 26 ASCII capitals only. *)
Definition lower (c : ascii) : ascii :=
  let n := nat_of_ascii c in
  if (65 <=? n)%nat && (n <=? 90)%nat then ascii_of_nat (n + 32) else c.

Fixpoint LOWER (s : string) : string :=
  match s with
  | EmptyString => EmptyString
  | String c r => String (lower c) (LOWER r)
  end.

(** [_] consumes one UTF-8 character: a lead byte and its continuation
    bytes. *)
Fixpoint skip_continuation (s : string) : string :=
  match s with
  | EmptyString => EmptyString
  | String c r =>
      let n := nat_of_ascii c in
      if (128 <=? n)%nat && (n <=? 191)%nat then skip_continuation r else s
  end.

Definition skip_char (c : ascii) (r : string) : string :=
  if (192 <=? nat_of_ascii c)%nat then skip_continuation r else r.


(** [s LIKE p]: [%] stands for any run of bytes, [_] for one character,
    anything else for itself up to ASCII case. *)
Fixpoint like (p s : string) : bool :=
  match p with
  | EmptyString =>
      match s with
      | EmptyString => true
      | String _ _ => false
      end
  | String c p' =>
      if Ascii.eqb c "%"%char then
        (fix star (s : string) : bool :=
           like p' s ||
           match s with
           | EmptyString => false
           | String _ r => star r
           end) s
      else if Ascii.eqb c "_"%char then
        match s with
        | EmptyString => false
        | String d r => like p' (skip_char d r)
        end
      else
        match s with
        | EmptyString => false
        | String d r => Ascii.eqb (lower c) (lower d) && like p' r
        end
  end.

(** [SELECT * FROM sub_accounts WHERE LOWER(name) LIKE LOWER(?)], bound to
    [%name%]; [first()] keeps the first row. *)
Definition getAccountByName (n : string) : M (option SubAccount) :=
  select (find (fun a => like (LOWER ("%" ++ n ++ "%")) (LOWER (name a)))).

(* ================================================================== *)
(** * Statements issued by the account tools *)
(* ================================================================== *)

(** [UPDATE sub_accounts SET is_default = 0] *)
Definition clear_defaults (t : list SubAccount) : list SubAccount :=
  map (fun a => mkSubAccount (id a) (name a) (api_key a) (account_type a) 0
                  (notes a) (created_at a) (updated_at a)) t.

(** [INSERT OR REPLACE INTO sub_accounts (id, name, api_key, account_type,
    is_default, notes, updated_at) VALUES (?, ?, ?, ?, ?, ?, datetime('now'))]:
    the row in conflict on the primary key is deleted, the new row goes to
    the end, [created_at] takes its column default. *)
Definition insert_or_replace (l n k ty : string) (d : Z) (no : option string)
    (now : string) (t : list SubAccount) : list SubAccount :=
  filter (fun a => negb (String.eqb (id a) l)) t
    ++ [mkSubAccount l n k ty d no now now].

(** [UPDATE sub_accounts SET is_default = 1, updated_at = datetime('now')
    WHERE id = ?] *)
Definition mark_default (l : string) (now : string) (t : list SubAccount) : list SubAccount :=
  map (fun a => if String.eqb (id a) l
                then mkSubAccount (id a) (name a) (api_key a) (account_type a) 1
                       (notes a) (created_at a) now
                else a) t.

(** [DELETE FROM sub_accounts WHERE id = ?] *)
Definition delete_by_id (l : string) (t : list SubAccount) : list SubAccount :=
  filter (fun a => negb (String.eqb (id a) l)) t.

(** [UPDATE sub_accounts SET api_key = ?, updated_at = datetime('now')
    WHERE id = ?] *)
Definition set_api_key (k l : string) (now : string) (t : list SubAccount) : list SubAccount :=
  map (fun a => if String.eqb (id a) l
                then mkSubAccount (id a) (name a) k (account_type a) (is_default a)
                       (notes a) (created_at a) now
                else a) t.

(** [ORDER BY name]: byte order, rows of equal name stay in rowid order. *)
Fixpoint insert_by_name (a : SubAccount) (t : list SubAccount) : list SubAccount :=
  match t with
  | [] => [a]
  | b :: r => if String.leb (name a) (name b) then a :: b :: r
              else b :: insert_by_name a r
  end.

Definition order_by_name (t : list SubAccount) : list SubAccount :=
  fold_right insert_by_name [] t.

(** One row of [SELECT id, name, account_type, is_default, notes,
    created_at, updated_at], after [is_default] is rewritten for display. *)
Definition listed (a : SubAccount) : Json :=
  JObj [("id", JStr (id a));
        ("name", JStr (name a));
        ("account_type", JStr (account_type a));
        ("is_default", JStr (if Z.eqb (is_default a) 1 then "YES" else "no"));
        ("notes", match notes a with Some n => JStr n | None => JNull end);
        ("created_at", JStr (created_at a));
        ("updated_at", JStr (updated_at a))].

(* ================================================================== *)
(** * Tool parameters *)
(* ================================================================== *)

Inductive AccountType : Type := agency | sub_account.

Definition accountType_name (t : AccountType) : string :=
  match t with
  | agency => "agency"
  | sub_account => "sub_account"
  end.

Inductive DataType : Type :=
| TEXT | LARGE_TEXT | NUMERICAL | PHONE | MONETORY | CHECKBOX
| SINGLE_OPTIONS | MULTIPLE_OPTIONS | DATE | FILE_UPLOAD | RADIO | EMAIL
| TEXTBOX_LIST.

Definition dataType_name (t : DataType) : string :=
  match t with
  | TEXT => "TEXT" | LARGE_TEXT => "LARGE_TEXT" | NUMERICAL => "NUMERICAL"
  | PHONE => "PHONE" | MONETORY => "MONETORY" | CHECKBOX => "CHECKBOX"
  | SINGLE_OPTIONS => "SINGLE_OPTIONS" | MULTIPLE_OPTIONS => "MULTIPLE_OPTIONS"
  | DATE => "DATE" | FILE_UPLOAD => "FILE_UPLOAD" | RADIO => "RADIO"
  | EMAIL => "EMAIL" | TEXTBOX_LIST => "TEXTBOX_LIST"
  end.

Definition jstr (s : option string) : option Json := option_map JStr s.
Definition jnum (z : option Z) : option Json := option_map JNum z.
Definition jbool (b : option bool) : option Json := option_map JBool b.
Definition jstrs (l : option (list string)) : option Json :=
  option_map (fun l => JArr (map JStr l)) l.

(** An element of the [fields] array of the bulk tool. *)
Module FieldDef.
Record t := mk {
    name : string;
    dataType : DataType;
    placeholder : option string;
    options : option (list string);
    isRequired : option bool;
    model : option string
  }.

Definition data (f : t) : JsObject :=
    [("name", Some (JStr (name f)));
     ("dataType", Some (JStr (dataType_name (dataType f))));
     ("placeholder", jstr (placeholder f));
     ("options", jstrs (options f));
     ("isRequired", jbool (isRequired f));
     ("model", jstr (model f))].
End FieldDef.

Module CreateContactField.
Record t := mk {
    name : string;
    dataType : DataType;
    placeholder : option string;
    position : option Z;
    options : option (list string);
    acceptedFormat : option (list string);
    isMultipleFile : option bool;
    maxNumberOfFiles : option Z;
    isRequired : option bool;
    model : option string;
    locationId : option string
  }.

Definition data (p : t) : JsObject :=
    [("name", Some (JStr (name p)));
     ("dataType", Some (JStr (dataType_name (dataType p))));
     ("placeholder", jstr (placeholder p));
     ("position", jnum (position p));
     ("options", jstrs (options p));
     ("acceptedFormat", jstrs (acceptedFormat p));
     ("isMultipleFile", jbool (isMultipleFile p));
     ("maxNumberOfFiles", jnum (maxNumberOfFiles p));
     ("isRequired", jbool (isRequired p));
     ("model", jstr (model p))].
End CreateContactField.

Module UpdateContactField.
Record t := mk {
    fieldId : string;
    name : option string;
    placeholder : option string;
    position : option Z;
    options : option (list string);
    isRequired : option bool;
    locationId : option string
  }.

Definition data (p : t) : JsObject :=
    [("name", jstr (name p));
     ("placeholder", jstr (placeholder p));
     ("position", jnum (position p));
     ("options", jstrs (options p));
     ("isRequired", jbool (isRequired p))].
End UpdateContactField.

Module CreateObjectField.
Record t := mk {
    objectKey : string;
    fieldKey : string;
    parentId : string;
    name : option string;
    description : option string;
    placeholder : option string;
    showInForms : bool;
    dataType : DataType;
    options : option (list (string * string));
    locationId : option string
  }.

Definition data (p : t) : JsObject :=
    [("objectKey", Some (JStr (objectKey p)));
     ("fieldKey", Some (JStr (fieldKey p)));
     ("parentId", Some (JStr (parentId p)));
     ("name", jstr (name p));
     ("description", jstr (description p));
     ("placeholder", jstr (placeholder p));
     ("showInForms", Some (JBool (showInForms p)));
     ("dataType", Some (JStr (dataType_name (dataType p))));
     ("options",
      option_map (fun l => JArr (map (fun kl => JObj [("key", JStr (fst kl));
                                                      ("label", JStr (snd kl))]) l))
        (options p))].
End CreateObjectField.

(** A per-item record of the bulk tool. *)
Module ItemResult.
Record t := mk {
    name : string;
    success : bool;
    error : option string;
    data : option Json
  }.

Definition to_json (r : t) : Json :=
    object [("name", Some (JStr (name r)));
            ("success", Some (JBool (success r)));
            ("data", data r);
            ("error", jstr (error r))].
End ItemResult.

(* ================================================================== *)
(** * Tool handlers (index.ts, version 2.0.0) *)
(* ================================================================== *)

Definition text_response (s : string) : ToolResponse := mkToolResponse s false.

(** [{ content: [{ type: "text", text: `Error: ${e.message}` }], isError: true }] *)
Definition error_response (e : string) : M ToolResponse :=
  ret (mkToolResponse ("Error: " ++ e) true).

Definition not_found (s : string) : M ToolResponse :=
  ret (mkToolResponse s true).

Section Agent.

Variable env : Env.

(** [JSON.stringify(value, null, 2)] *)
Variable stringify : Json -> string.

(** ** Account management tools *)

Definition ghl_add_sub_account (l n k : string) (accountType : AccountType)
    (isDefault : bool) (no : option string) : M ToolResponse :=
  try_catch
    (initDb ;;;
     (if isDefault then run (fun _ => clear_defaults) else ret tt) ;;;
     run (insert_or_replace l n k (accountType_name accountType)
            (if isDefault then 1 else 0)
            (if truthy no then no else None)) ;;;
     ret (text_response
            ("Sub-account " ++ dq ++ n ++ dq ++ " (" ++ l
               ++ ") registered successfully!"
               ++ (if isDefault then " Set as default." else ""))))
    error_response.

Definition ghl_list_sub_accounts : M ToolResponse :=
  try_catch
    (initDb ;;;
     results <- select order_by_name ;;
     match results with
     | [] => ret (text_response
                    "No sub-accounts registered yet. Use ghl_add_sub_account to add one.")
     | _ :: _ =>
         let accounts := map listed results in
         ret (text_response
                (string_of_nat (length accounts) ++ " sub-account(s) registered:"
                   ++ nl ++ nl ++ stringify (JArr accounts)))
     end)
    error_response.

Definition ghl_set_default_account (l n : option string) : M ToolResponse :=
  try_catch
    (initDb ;;;
     account <- (if truthy l then getAccountById (or_else l "")
                 else if truthy n then getAccountByName (or_else n "")
                 else ret None) ;;
     match account with
     | None =>
         not_found
           "Account not found. Use ghl_list_sub_accounts to see available accounts."
     | Some account =>
         run (fun _ => clear_defaults) ;;;
         run (mark_default (id account)) ;;;
         ret (text_response
                ("Default account set to " ++ dq ++ name account ++ dq
                   ++ " (" ++ id account ++ ")"))
     end)
    error_response.

Definition ghl_remove_sub_account (l : string) : M ToolResponse :=
  try_catch
    (initDb ;;;
     account <- getAccountById l ;;
     match account with
     | None => not_found "Account not found."
     | Some account =>
         run (fun _ => delete_by_id l) ;;;
         ret (text_response
                ("Sub-account " ++ dq ++ name account ++ dq ++ " (" ++ l
                   ++ ") removed from registry."))
     end)
    error_response.

Definition ghl_update_sub_account_token (l k : string) : M ToolResponse :=
  try_catch
    (initDb ;;;
     account <- getAccountById l ;;
     match account with
     | None => not_found "Account not found."
     | Some account =>
         run (set_api_key k l) ;;;
         ret (text_response
                ("API token updated for " ++ dq ++ name account ++ dq
                   ++ " (" ++ l ++ ")"))
     end)
    error_response.

(** ** Contact custom field tools *)

Definition ghl_list_contact_custom_fields (l : option string) : M ToolResponse :=
  try_catch
    (client <- resolveClient env l ;;
     result <- getLocationCustomFields client None ;;
     ret (text_response (stringify result)))
    error_response.

Definition ghl_get_contact_custom_field (fieldId : string) (l : option string)
    : M ToolResponse :=
  try_catch
    (client <- resolveClient env l ;;
     result <- getLocationCustomField client fieldId None ;;
     ret (text_response (stringify result)))
    error_response.

Definition ghl_create_contact_custom_field (p : CreateContactField.t) : M ToolResponse :=
  try_catch
    (client <- resolveClient env (CreateContactField.locationId p) ;;
     result <- createLocationCustomField client (CreateContactField.data p) None ;;
     ret (text_response
            ("Custom field " ++ dq ++ CreateContactField.name p ++ dq ++ " created!"
               ++ nl ++ nl ++ stringify result)))
    error_response.

Definition ghl_update_contact_custom_field (p : UpdateContactField.t) : M ToolResponse :=
  try_catch
    (client <- resolveClient env (UpdateContactField.locationId p) ;;
     result <- updateLocationCustomField client (UpdateContactField.fieldId p)
                 (UpdateContactField.data p) None ;;
     ret (text_response ("Custom field updated!" ++ nl ++ nl ++ stringify result)))
    error_response.

Definition ghl_delete_contact_custom_field (fieldId : string) (l : option string)
    : M ToolResponse :=
  try_catch
    (client <- resolveClient env l ;;
     result <- deleteLocationCustomField client fieldId None ;;
     ret (text_response ("Custom field deleted." ++ nl ++ nl ++ stringify result)))
    error_response.

(** The body of [for (const field of fields) { try ... catch ... }]. *)
Definition create_one (client : GHLClient) (l : option string) (field : FieldDef.t)
    (results : list ItemResult.t) : M (list ItemResult.t) :=
  try_catch
    (result <- createLocationCustomField client (FieldDef.data field) l ;;
     ret (results ++ [ItemResult.mk (FieldDef.name field) true None (Some result)])%list)
    (fun e =>
       ret (results ++ [ItemResult.mk (FieldDef.name field) false (Some e) None])%list).

Fixpoint create_each (client : GHLClient) (l : option string) (fields : list FieldDef.t)
    (results : list ItemResult.t) : M (list ItemResult.t) :=
  match fields with
  | [] => ret results
  | field :: rest =>
      results <- create_one client l field results ;;
      create_each client l rest results
  end.

Definition bulk_summary (prefix : string) (results : list ItemResult.t) : ToolResponse :=
  let successCount := length (filter ItemResult.success results) in
  let failCount := length (filter (fun r => negb (ItemResult.success r)) results) in
  text_response
    (prefix ++ string_of_nat successCount ++ " succeeded, "
       ++ string_of_nat failCount ++ " failed." ++ nl ++ nl
       ++ stringify (JArr (map ItemResult.to_json results))).

Definition ghl_bulk_create_contact_custom_fields (fields : list FieldDef.t)
    (l : option string) : M ToolResponse :=
  client <- resolveClient env l ;;
  results <- create_each client None fields [] ;;
  ret (bulk_summary "Bulk create: " results).

(** ** Custom object field tools *)

Definition ghl_list_object_custom_fields (objectKey : string) (l : option string)
    : M ToolResponse :=
  try_catch
    (client <- resolveClient env l ;;
     result <- getCustomFieldsByObjectKey client objectKey None ;;
     ret (text_response (stringify result)))
    error_response.

Definition ghl_create_object_custom_field (p : CreateObjectField.t) : M ToolResponse :=
  try_catch
    (client <- resolveClient env (CreateObjectField.locationId p) ;;
     result <- createCustomField client (CreateObjectField.data p) ;;
     ret (text_response
            ("Object custom field created!" ++ nl ++ nl ++ stringify result)))
    error_response.

Definition ghl_create_custom_field_folder (objectKey n : string) (l : option string)
    : M ToolResponse :=
  try_catch
    (client <- resolveClient env l ;;
     result <- createCustomFieldFolder client
                 [("objectKey", Some (JStr objectKey)); ("name", Some (JStr n))] ;;
     ret (text_response
            ("Folder " ++ dq ++ n ++ dq ++ " created!" ++ nl ++ nl ++ stringify result)))
    error_response.

(** ** Custom value tools *)

Definition ghl_list_custom_values (l : option string) : M ToolResponse :=
  try_catch
    (client <- resolveClient env l ;;
     result <- getCustomValues client None ;;
     ret (text_response (stringify result)))
    error_response.

Definition ghl_create_custom_value (n v : string) (l : option string) : M ToolResponse :=
  try_catch
    (client <- resolveClient env l ;;
     result <- createCustomValue client
                 [("name", Some (JStr n)); ("value", Some (JStr v))] None ;;
     ret (text_response
            ("Custom value " ++ dq ++ n ++ dq ++ " created!" ++ nl ++ nl
               ++ stringify result)))
    error_response.

Definition ghl_update_custom_value (valueId : string) (n v : option string)
    (l : option string) : M ToolResponse :=
  try_catch
    (client <- resolveClient env l ;;
     result <- updateCustomValue client valueId
                 [("name", jstr n); ("value", jstr v)] None ;;
     ret (text_response ("Custom value updated!" ++ nl ++ nl ++ stringify result)))
    error_response.

Definition ghl_delete_custom_value (valueId : string) (l : option string)
    : M ToolResponse :=
  try_catch
    (client <- resolveClient env l ;;
     result <- deleteCustomValue client valueId None ;;
     ret (text_response ("Custom value deleted." ++ nl ++ nl ++ stringify result)))
    error_response.

(** ** The tool surface *)

Inductive ToolCall : Type :=
| AddSubAccount (l n k : string) (accountType : AccountType) (isDefault : bool)
    (no : option string)
| ListSubAccounts
| SetDefaultAccount (l n : option string)
| RemoveSubAccount (l : string)
| UpdateSubAccountToken (l k : string)
| ListContactCustomFields (l : option string)
| GetContactCustomField (fieldId : string) (l : option string)
| CreateContactCustomField (p : CreateContactField.t)
| UpdateContactCustomField (p : UpdateContactField.t)
| DeleteContactCustomField (fieldId : string) (l : option string)
| BulkCreateContactCustomFields (fields : list FieldDef.t) (l : option string)
| ListObjectCustomFields (objectKey : string) (l : option string)
| CreateObjectCustomField (p : CreateObjectField.t)
| CreateCustomFieldFolder (objectKey n : string) (l : option string)
| ListCustomValues (l : option string)
| CreateCustomValue (n v : string) (l : option string)
| UpdateCustomValue (valueId : string) (n v : option string) (l : option string)
| DeleteCustomValue (valueId : string) (l : option string).

Definition handle (c : ToolCall) : M ToolResponse :=
  match c with
  | AddSubAccount l n k ty d no => ghl_add_sub_account l n k ty d no
  | ListSubAccounts => ghl_list_sub_accounts
  | SetDefaultAccount l n => ghl_set_default_account l n
  | RemoveSubAccount l => ghl_remove_sub_account l
  | UpdateSubAccountToken l k => ghl_update_sub_account_token l k
  | ListContactCustomFields l => ghl_list_contact_custom_fields l
  | GetContactCustomField f l => ghl_get_contact_custom_field f l
  | CreateContactCustomField p => ghl_create_contact_custom_field p
  | UpdateContactCustomField p => ghl_update_contact_custom_field p
  | DeleteContactCustomField f l => ghl_delete_contact_custom_field f l
  | BulkCreateContactCustomFields fs l => ghl_bulk_create_contact_custom_fields fs l
  | ListObjectCustomFields k l => ghl_list_object_custom_fields k l
  | CreateObjectCustomField p => ghl_create_object_custom_field p
  | CreateCustomFieldFolder k n l => ghl_create_custom_field_folder k n l
  | ListCustomValues l => ghl_list_custom_values l
  | CreateCustomValue n v l => ghl_create_custom_value n v l
  | UpdateCustomValue i n v l => ghl_update_custom_value i n v l
  | DeleteCustomValue i l => ghl_delete_custom_value i l
  end.

(** A sequential execution: each call is made at some time of the clock and
    runs to completion before the next. The steps record the call, how it
    ended and the world it left. *)
Record Step := mkStep {
  call : ToolCall;
  outcome : Outcome ToolResponse;
  after : World
}.

Fixpoint execution (calls : list (string * ToolCall)) (w : World) : list Step :=
  match calls with
  | [] => []
  | (now, c) :: rest =>
      let (o, w') := handle c (set_clock now w) in
      mkStep c o w' :: execution rest w'
  end.

End Agent.

(** ** The bulk tool of version 1.0.0 *)

Module V1.

Definition createClient (env : Env) : GHLClient :=
  mkGHLClient (GHL_API_KEY env) (GHL_LOCATION_ID env).

Definition ghl_bulk_create_contact_custom_fields (env : Env) (stringify : Json -> string)
    (fields : list FieldDef.t) (l : option string) : M ToolResponse :=
  let client := createClient env in
  results <- create_each client l fields [] ;;
  ret (bulk_summary stringify "Bulk create complete: " results).

(** The other tools of version 1.0.0: one client built from the
    environment, the optional [locationId] handed to the facade. *)
Section Tools.

Variable env : Env.
Variable stringify : Json -> string.

Definition ghl_list_contact_custom_fields (l : option string) : M ToolResponse :=
  let client := createClient env in
  try_catch
    (result <- getLocationCustomFields client l ;;
     ret (text_response (stringify result)))
    error_response.

Definition ghl_get_contact_custom_field (fieldId : string) (l : option string)
    : M ToolResponse :=
  let client := createClient env in
  try_catch
    (result <- getLocationCustomField client fieldId l ;;
     ret (text_response (stringify result)))
    error_response.

Definition ghl_create_contact_custom_field (p : CreateContactField.t) : M ToolResponse :=
  let client := createClient env in
  try_catch
    (result <- createLocationCustomField client (CreateContactField.data p)
                 (CreateContactField.locationId p) ;;
     ret (text_response
            ("Custom field " ++ dq ++ CreateContactField.name p ++ dq
               ++ " created successfully!" ++ nl ++ nl ++ stringify result)))
    error_response.

Definition ghl_update_contact_custom_field (p : UpdateContactField.t) : M ToolResponse :=
  let client := createClient env in
  try_catch
    (result <- updateLocationCustomField client (UpdateContactField.fieldId p)
                 (UpdateContactField.data p) (UpdateContactField.locationId p) ;;
     ret (text_response
            ("Custom field updated successfully!" ++ nl ++ nl ++ stringify result)))
    error_response.

Definition ghl_delete_contact_custom_field (fieldId : string) (l : option string)
    : M ToolResponse :=
  let client := createClient env in
  try_catch
    (result <- deleteLocationCustomField client fieldId l ;;
     ret (text_response ("Custom field deleted." ++ nl ++ nl ++ stringify result)))
    error_response.

Definition ghl_list_object_custom_fields (objectKey : string) (l : option string)
    : M ToolResponse :=
  let client := createClient env in
  try_catch
    (result <- getCustomFieldsByObjectKey client objectKey l ;;
     ret (text_response (stringify result)))
    error_response.

Definition ghl_create_object_custom_field (p : CreateObjectField.t) : M ToolResponse :=
  let client := createClient env in
  try_catch
    (result <- createCustomField client
                 (CreateObjectField.data p
                    ++ [("locationId", jstr (CreateObjectField.locationId p))])%list ;;
     ret (text_response
            ("Object custom field created!" ++ nl ++ nl ++ stringify result)))
    error_response.

Definition ghl_create_custom_field_folder (objectKey n : string) (l : option string)
    : M ToolResponse :=
  let client := createClient env in
  try_catch
    (result <- createCustomFieldFolder client
                 [("objectKey", Some (JStr objectKey)); ("name", Some (JStr n));
                  ("locationId", jstr l)] ;;
     ret (text_response
            ("Folder " ++ dq ++ n ++ dq ++ " created!" ++ nl ++ nl ++ stringify result)))
    error_response.

Definition ghl_list_custom_values (l : option string) : M ToolResponse :=
  let client := createClient env in
  try_catch
    (result <- getCustomValues client l ;;
     ret (text_response (stringify result)))
    error_response.

Definition ghl_create_custom_value (n v : string) (l : option string) : M ToolResponse :=
  let client := createClient env in
  try_catch
    (result <- createCustomValue client
                 [("name", Some (JStr n)); ("value", Some (JStr v))] l ;;
     ret (text_response
            ("Custom value " ++ dq ++ n ++ dq ++ " created!" ++ nl ++ nl
               ++ stringify result)))
    error_response.

Definition ghl_update_custom_value (valueId : string) (n v : option string)
    (l : option string) : M ToolResponse :=
  let client := createClient env in
  try_catch
    (result <- updateCustomValue client valueId
                 [("name", jstr n); ("value", jstr v)] l ;;
     ret (text_response ("Custom value updated!" ++ nl ++ nl ++ stringify result)))
    error_response.

Definition ghl_delete_custom_value (valueId : string) (l : option string)
    : M ToolResponse :=
  let client := createClient env in
  try_catch
    (result <- deleteCustomValue client valueId l ;;
     ret (text_response ("Custom value deleted." ++ nl ++ nl ++ stringify result)))
    error_response.

(** The tool surface of version 1.0.0: the account tools do not exist. *)
Definition handle (c : ToolCall) : option (M ToolResponse) :=
  match c with
  | ListContactCustomFields l => Some (ghl_list_contact_custom_fields l)
  | GetContactCustomField f l => Some (ghl_get_contact_custom_field f l)
  | CreateContactCustomField p => Some (ghl_create_contact_custom_field p)
  | UpdateContactCustomField p => Some (ghl_update_contact_custom_field p)
  | DeleteContactCustomField f l => Some (ghl_delete_contact_custom_field f l)
  | BulkCreateContactCustomFields fs l =>
      Some (ghl_bulk_create_contact_custom_fields env stringify fs l)
  | ListObjectCustomFields k l => Some (ghl_list_object_custom_fields k l)
  | CreateObjectCustomField p => Some (ghl_create_object_custom_field p)
  | CreateCustomFieldFolder k n l => Some (ghl_create_custom_field_folder k n l)
  | ListCustomValues l => Some (ghl_list_custom_values l)
  | CreateCustomValue n v l => Some (ghl_create_custom_value n v l)
  | UpdateCustomValue i n v l => Some (ghl_update_custom_value i n v l)
  | DeleteCustomValue i l => Some (ghl_delete_custom_value i l)
  | _ => None
  end.

End Tools.

End V1.

(* ================================================================== *)
(** * The facade as a whole *)
(* ================================================================== *)

(** One constructor per method of [GHLClient] that calls [request]. *)
Inductive FacadeCall : Type :=
| GetCustomFieldsByObjectKey (objectKey : string) (l : option string)
| GetCustomFieldById (i : string)
| CreateCustomField (data : JsObject)
| UpdateCustomField (i : string) (data : JsObject)
| DeleteCustomField (i : string)
| CreateCustomFieldFolderCall (data : JsObject)
| UpdateCustomFieldFolder (i : string) (data : JsObject)
| DeleteCustomFieldFolder (i : string) (l : option string)
| GetLocationCustomFields (l : option string)
| GetLocationCustomField (fieldId : string) (l : option string)
| CreateLocationCustomField (data : JsObject) (l : option string)
| UpdateLocationCustomField (fieldId : string) (data : JsObject) (l : option string)
| DeleteLocationCustomField (fieldId : string) (l : option string)
| GetCustomValues (l : option string)
| GetCustomValue (valueId : string) (l : option string)
| CreateCustomValueCall (data : JsObject) (l : option string)
| UpdateCustomValueCall (valueId : string) (data : JsObject) (l : option string)
| DeleteCustomValueCall (valueId : string) (l : option string).

Definition perform (c : GHLClient) (f : FacadeCall) : M Json :=
  match f with
  | GetCustomFieldsByObjectKey k l => getCustomFieldsByObjectKey c k l
  | GetCustomFieldById i => getCustomFieldById c i
  | CreateCustomField d => createCustomField c d
  | UpdateCustomField i d => updateCustomField c i d
  | DeleteCustomField i => deleteCustomField c i
  | CreateCustomFieldFolderCall d => createCustomFieldFolder c d
  | UpdateCustomFieldFolder i d => updateCustomFieldFolder c i d
  | DeleteCustomFieldFolder i l => deleteCustomFieldFolder c i l
  | GetLocationCustomFields l => getLocationCustomFields c l
  | GetLocationCustomField i l => getLocationCustomField c i l
  | CreateLocationCustomField d l => createLocationCustomField c d l
  | UpdateLocationCustomField i d l => updateLocationCustomField c i d l
  | DeleteLocationCustomField i l => deleteLocationCustomField c i l
  | GetCustomValues l => getCustomValues c l
  | GetCustomValue i l => getCustomValue c i l
  | CreateCustomValueCall d l => createCustomValue c d l
  | UpdateCustomValueCall i d l => updateCustomValue c i d l
  | DeleteCustomValueCall i l => deleteCustomValue c i l
  end.

(** Methods that carry a JSON body: the creates and the updates. *)
Definition writes (f : FacadeCall) : bool :=
  match f with
  | CreateCustomField _ | UpdateCustomField _ _ | CreateCustomFieldFolderCall _
  | UpdateCustomFieldFolder _ _ | CreateLocationCustomField _ _
  | UpdateLocationCustomField _ _ _ | CreateCustomValueCall _ _
  | UpdateCustomValueCall _ _ _ => true
  | _ => false
  end.

(** A request without its headers. *)
Definition sans_headers (q : Request) : Request :=
  mkRequest (method q) (url q) (searchParams q) [] (body q).

(** The [locationId] parameter of a tool call that has one besides the
    registry tools. *)
Definition tenant_of (c : ToolCall) : option string :=
  match c with
  | ListContactCustomFields l | GetContactCustomField _ l
  | DeleteContactCustomField _ l | BulkCreateContactCustomFields _ l
  | ListObjectCustomFields _ l | CreateCustomFieldFolder _ _ l
  | ListCustomValues l | CreateCustomValue _ _ l | UpdateCustomValue _ _ _ l
  | DeleteCustomValue _ l => l
  | CreateContactCustomField p => CreateContactField.locationId p
  | UpdateContactCustomField p => UpdateContactField.locationId p
  | CreateObjectCustomField p => CreateObjectField.locationId p
  | _ => None
  end.

(** The registry tools. *)
Definition registry_tool (c : ToolCall) : bool :=
  match c with
  | AddSubAccount _ _ _ _ _ _ | ListSubAccounts | SetDefaultAccount _ _
  | RemoveSubAccount _ | UpdateSubAccountToken _ _ => true
  | _ => false
  end.

(** The tools that resolve a tenant and make one facade call under
    [try]. *)
Definition single_call_tool (c : ToolCall) : bool :=
  match c with
  | BulkCreateContactCustomFields _ _ => false
  | _ => negb (registry_tool c)
  end.

(** The registry offers nothing for [l]: a non-empty identifier without a
    registration, or no identifier and no row flagged default. *)
Definition unregistered (l : option string) (t : list SubAccount) : Prop :=
  if truthy l then forall a, In a t -> id a <> or_else l ""
  else forall a, In a t -> is_default a <> 1%Z.

(* ================================================================== *)
(** * Predicates on registries, responses and strings *)
(* ================================================================== *)

(** No statement is scheduled to fail. *)
Definition db_healthy (w : World) : bool :=
  forallb (fun f => match f with None => true | Some _ => false end) (db_faults w).

(** [id] is the primary key. *)
Definition primary_key (t : list SubAccount) : Prop := NoDup (map id t).

Definition flagged (a : SubAccount) : bool := Z.eqb (is_default a) 1.

(** Number of rows holding the default flag. *)
Definition defaults (t : list SubAccount) : nat := length (filter flagged t).



(** A row with its credential blanked. *)
Definition redact (a : SubAccount) : SubAccount :=
  mkSubAccount (id a) (name a) "" (account_type a) (is_default a) (notes a)
    (created_at a) (updated_at a).




(** Computable substring test, for the worked examples. *)
Fixpoint includes (s t : string) : bool :=
  prefix s t ||
  match t with
  | EmptyString => false
  | String _ r => includes s r
  end.

(** ** What the upstream does to a sequence of requests *)

(** The message for a reply that is not a success: status code, status
    text and raw body. *)
Definition api_error (resp : Response) : string :=
  "GHL API Error " ++ string_of_Z (status resp) ++ ": " ++ statusText resp
    ++ " - " ++ text resp.

(** How one exchange ends for the caller of [request]: the message of the
    error, or the parsed body. *)
Definition settle (r : HttpReply) : string + Json :=
  match r with
  | NetworkFailure e => inl e
  | Replied resp => if ok resp then json resp else inl (api_error resp)
  end.

Fixpoint exchanges (up : list Request -> Request -> HttpReply) (log : list Request)
    (qs : list Request) : list (string + Json) :=
  match qs with
  | [] => []
  | q :: r => settle (up log q) :: exchanges up (log ++ [q]) r
  end.

Definition failed (o : string + Json) : bool :=
  match o with
  | inl _ => true
  | inr _ => false
  end.

(** The request for one field definition of a bulk call. *)
Definition item_request (c : GHLClient) (l : option string) (f : FieldDef.t) : Request :=
  request_of c "POST" ("/locations/" ++ or_else l (locationId c) ++ "/customFields")
    (mkOptions (Some (object (FieldDef.data f))) None v2021).

(** The per-item record expected for a field and the way its exchange
    ended. *)
Definition item_record (f : FieldDef.t) (o : string + Json) : ItemResult.t :=
  match o with
  | inl e => ItemResult.mk (FieldDef.name f) false (Some e) None
  | inr j => ItemResult.mk (FieldDef.name f) true None (Some j)
  end.

(* ================================================================== *)
(** * Specifications of computations over the table *)
(* ================================================================== *)

(** [ensures P c Q E]: started on a table satisfying [P], the computation
    [c] either returns [a] on a table satisfying [Q a] or throws on a table
    satisfying [E]. *)
Definition ensures {A} (P : list SubAccount -> Prop) (c : M A)
    (Q : A -> list SubAccount -> Prop) (E : list SubAccount -> Prop) : Prop :=
  forall w, P (table w) ->
    match c w with
    | (Returned a, w') => Q a (table w')
    | (Thrown _, w') => E (table w')
    end.


(** Computations that never write the table keep any property of it. *)
Definition reads_only {A} (c : M A) : Prop :=
  forall P, ensures P c (fun _ => P) P.


(** What token rotation may change in a row. *)
Definition rotated (l k : string) (a a' : SubAccount) : Prop :=
  id a' = id a /\ name a' = name a /\ account_type a' = account_type a
  /\ is_default a' = is_default a /\ notes a' = notes a
  /\ created_at a' = created_at a
  /\ (id a <> l -> a' = a)
  /\ (id a = l -> api_key a' = k).

Definition item_records (fields : list FieldDef.t) (outs : list (string + Json))
    : list ItemResult.t :=
  map (fun p => item_record (fst p) (snd p)) (combine fields outs).

(** What a bulk call owes for [fields] sent as [client] from world [w1]:
    one request per item, in order, each answered by the upstream after
    the ones before it; a response that counts the [m] failed exchanges and
    the others; and for each item the record of how its exchange ended. *)
Definition reports_each_item (stringify : Json -> string) (prefix : string)
    (client : GHLClient) (l : option string) (fields : list FieldDef.t) (w1 : World)
    (result : Outcome ToolResponse * World) : Prop :=
  let qs := map (item_request client l) fields in
  let outs := exchanges (upstream w1) (http_log w1) qs in
  let results := item_records fields outs in
  let m := length (filter failed outs) in
  result
  = (Returned
       (mkToolResponse
          (prefix ++ string_of_nat (length fields - m) ++ " succeeded, "
             ++ string_of_nat m ++ " failed." ++ nl ++ nl
             ++ stringify (JArr (map ItemResult.to_json results)))
          false),
     set_http_log (http_log w1 ++ qs) w1)
  /\ length outs = length fields
  /\ length results = length fields
  /\ forall i f, nth_error fields i = Some f ->
       exists o, nth_error outs i = Some o
                 /\ nth_error results i = Some (item_record f o)
                 /\ (forall e, o = inl e ->
                       nth_error results i
                       = Some (ItemResult.mk (FieldDef.name f) false (Some e) None)).

Definition name_matcher (s : string) (a : SubAccount) : bool :=
  like (LOWER ("%" ++ s ++ "%")) (LOWER (name a)).

Definition account_not_found : ToolResponse :=
  mkToolResponse "Account not found. Use ghl_list_sub_accounts to see available accounts."
    true.

(** The world after a statement keeps the log. *)
Definition quiet {A} (c : M A) : Prop :=
  forall w, http_log (snd (c w)) = http_log w.

Definition versioned_headers (c : GHLClient) : list (string * string) :=
  [("Authorization", "Bearer " ++ apiKey c);
   ("Content-Type", "application/json");
   ("Accept", "application/json");
   ("Version", "2021-07-28")].

(** What one facade call does: a single request, settled once. *)
Definition one_exchange (c : GHLClient) (f : FacadeCall) (w : World) (q : Request) : Prop :=
  perform c f w
  = (match settle (upstream w (http_log w) q) with
     | inl e => Thrown e
     | inr j => Returned j
     end,
     set_http_log (http_log w ++ [q]) w)
  /\ headers q = versioned_headers c
  /\ (exists path, url q = baseUrl ++ path)
  /\ (if writes f then exists members, body q = Some (JObj members) else body q = None).

(** How a guarded tool words its answer. *)
Definition answer (K : Json -> string) (o : Outcome Json) : ToolResponse :=
  match o with
  | Returned j => text_response (K j)
  | Thrown e => mkToolResponse ("Error: " ++ e) true
  end.

(** Tools whose success text is worded alike in both versions. *)
Definition same_wording (c : ToolCall) : bool :=
  match c with
  | CreateContactCustomField _ | UpdateContactCustomField _
  | BulkCreateContactCustomFields _ _ => false
  | _ => true
  end.

Definition by_name (a b : SubAccount) : Prop := String.leb (name a) (name b) = true.

Fixpoint all_percent (s : string) : bool :=
  match s with
  | EmptyString => true
  | String c r => Ascii.eqb c "%" && all_percent r
  end.

(* ================================================================== *)
(** * Sample data for the worked examples *)
(* ================================================================== *)

(** A compact serializer standing in for [JSON.stringify] in examples. *)
Fixpoint compact (j : Json) : string :=
  match j with
  | JNull => "null"
  | JBool true => "true"
  | JBool false => "false"
  | JNum z => string_of_Z z
  | JStr s => dq ++ s ++ dq
  | JArr l =>
      "[" ++ (fix items (l : list Json) : string :=
                match l with
                | [] => ""
                | [x] => compact x
                | x :: r => compact x ++ "," ++ items r
                end) l ++ "]"
  | JObj l =>
      "{" ++ (fix members (l : list (string * Json)) : string :=
                match l with
                | [] => ""
                | [(k, v)] => dq ++ k ++ dq ++ ":" ++ compact v
                | (k, v) :: r => dq ++ k ++ dq ++ ":" ++ compact v ++ "," ++ members r
                end) l ++ "}"
  end.

Definition env0 : Env := mkEnv "pit-fallback" "loc_env".

Definition acme : SubAccount :=
  mkSubAccount "loc_123" "Acme" "pit-acme" "sub_account" 1 None
    "2024-01-01 00:00:00" "2024-01-01 00:00:00".

Definition smith : SubAccount :=
  mkSubAccount "loc_456" "Dr. Smith Dental" "pit-smith" "sub_account" 0 (Some "dental")
    "2024-01-02 00:00:00" "2024-01-02 00:00:00".

Definition duplicate_body : string :=
  "{" ++ dq ++ "message" ++ dq ++ ":" ++ dq ++ "duplicate fieldKey" ++ dq ++ "}".

Definition unprocessable : Response :=
  mkResponse 422 "Unprocessable Entity" duplicate_body (inr (JObj [])).

Definition created : Response :=
  mkResponse 201 "Created" "{}" (inr (JObj [])).

(** An upstream that refuses a second field named like one it has seen. *)
Definition no_duplicates (log : list Request) (q : Request) : HttpReply :=
  if existsb (fun p => match body p, body q with
                       | Some (JObj (("name", JStr a) :: _)),
                         Some (JObj (("name", JStr b) :: _)) => String.eqb a b
                       | _, _ => false
                       end) log
  then Replied unprocessable
  else Replied created.

Definition world_of (t : list SubAccount) (faults : list (option string)) : World :=
  mkWorld t faults "2024-06-01 12:00:00" [] no_duplicates.

Definition text_field (n : string) : FieldDef.t :=
  FieldDef.mk n TEXT None None None None.

Definition always (r : HttpReply) (log : list Request) (q : Request) : HttpReply := r.

Definition busy_world (r : Response) : World :=
  mkWorld [acme; smith] [] "2024-06-01 12:00:00" [] (always (Replied r)).

Definition pet_name : CreateContactField.t :=
  CreateContactField.mk "Pet name" TEXT None None None None None None None None None.

Definition three_fields : list FieldDef.t :=
  [text_field "Pet name"; text_field "Pet name"; text_field "Breed"].

Definition d1_down : World :=
  world_of [acme; smith] [Some "D1_ERROR: Network connection lost."].

Definition insert_fails : World :=
  world_of [acme; smith] [None; None; Some "D1_ERROR: disk full"].

(* ================================================================== *)
(** * Basic facts: strings, statements, healthy worlds *)
(* ================================================================== *)

Lemma append_assoc (a b c : string) : (a ++ b) ++ c = a ++ (b ++ c).
Proof. induction a as [|x a IH]; simpl; [reflexivity | now rewrite IH]. Qed.

Lemma append_nil_r (a : string) : a ++ "" = a.
Proof. induction a as [|x a IH]; simpl; [reflexivity | now rewrite IH]. Qed.

Lemma truthy_false (l : option string) :
  truthy l = false <-> l = None \/ l = Some "".
Proof.
  destruct l as [[|c s]|]; simpl; split; intros H; auto; try discriminate.
  destruct H as [H|H]; discriminate.
Qed.

Lemma truthy_true (l : option string) :
  truthy l = true <-> exists i, l = Some i /\ i <> "".
Proof.
  destruct l as [[|c s]|]; simpl; split; intros H; try discriminate.
  - destruct H as (i & E & N). inversion E. congruence.
  - exists (String c s). split; [reflexivity | discriminate].
  - reflexivity.
  - destruct H as (i & E & _). discriminate.
Qed.

Lemma or_else_truthy (i d : string) : i <> "" -> or_else (Some i) d = i.
Proof. destruct i; [congruence | reflexivity]. Qed.

Lemma healthy_next_fault w : db_healthy w = true -> next_fault w = None.
Proof.
  unfold db_healthy, next_fault. destruct (db_faults w) as [|[e|] r]; simpl; congruence.
Qed.

Lemma healthy_advance w : db_healthy w = true -> db_healthy (advance w) = true.
Proof.
  unfold db_healthy, advance. simpl.
  destruct (db_faults w) as [|f r]; simpl; [reflexivity|].
  intros H. apply andb_true_iff in H. apply H.
Qed.

Lemma healthy_set_table t w : db_healthy (set_table t w) = db_healthy w.
Proof. reflexivity. Qed.

(** In a healthy world a statement runs, and leaves a healthy world. *)
Lemma statement_healthy {A} (f : string -> list SubAccount -> A * list SubAccount) w :
  db_healthy w = true ->
  statement f w
  = (Returned (fst (f (clock w) (table w))),
     set_table (snd (f (clock w) (table w))) (advance w)).
Proof.
  intros H. unfold statement. rewrite (healthy_next_fault _ H).
  destruct (f (clock w) (table w)); reflexivity.
Qed.

Lemma statement_faulty {A} (f : string -> list SubAccount -> A * list SubAccount) w e :
  next_fault w = Some e -> statement f w = (Thrown e, advance w).
Proof. intros H. unfold statement. now rewrite H. Qed.

Lemma select_healthy {A} (f : list SubAccount -> A) w :
  db_healthy w = true -> select f w = (Returned (f (table w)), set_table (table w) (advance w)).
Proof. intros H. unfold select. now rewrite statement_healthy. Qed.

Lemma run_healthy f w :
  db_healthy w = true ->
  run f w = (Returned tt, set_table (f (clock w) (table w)) (advance w)).
Proof. intros H. unfold run. now rewrite statement_healthy. Qed.

Lemma initDb_healthy w :
  db_healthy w = true -> initDb w = (Returned tt, set_table (table w) (advance w)).
Proof. apply run_healthy. Qed.

(* ================================================================== *)
(** * Rules for [ensures] *)
(* ================================================================== *)

Section Rules.

Context {A B : Type}.
Implicit Types (P E : list SubAccount -> Prop).

Lemma ensures_ret P (a : A) (Q : A -> list SubAccount -> Prop) E :
  (forall t, P t -> Q a t) -> ensures P (ret a) Q E.
Proof. intros H w Hw. simpl. auto. Qed.

Lemma ensures_bind P (c : M A) (k : A -> M B) R Q E :
  ensures P c R E -> (forall a, ensures (R a) (k a) Q E) ->
  ensures P (bind c k) Q E.
Proof.
  intros Hc Hk w Hw. unfold bind. specialize (Hc w Hw).
  destruct (c w) as [[a|e] w']; [apply (Hk a w' Hc) | exact Hc].
Qed.

Lemma ensures_try_catch P (c : M A) (h : string -> M A) Q E' E :
  ensures P c Q E' -> (forall e, ensures E' (h e) Q E) ->
  ensures P (try_catch c h) Q E.
Proof.
  intros Hc Hh w Hw. unfold try_catch. specialize (Hc w Hw).
  destruct (c w) as [[a|e] w']; [exact Hc | apply (Hh e w' Hc)].
Qed.

Lemma ensures_statement P (f : string -> list SubAccount -> A * list SubAccount)
    (Q : A -> list SubAccount -> Prop) E :
  (forall now t, P t -> Q (fst (f now t)) (snd (f now t))) ->
  (forall t, P t -> E t) ->
  ensures P (statement f) Q E.
Proof.
  intros HQ HE w Hw. unfold statement.
  destruct (next_fault w); simpl; [auto|].
  specialize (HQ (clock w) (table w) Hw).
  destruct (f (clock w) (table w)); simpl in *. exact HQ.
Qed.


End Rules.

Lemma ensures_select {A} P (f : list SubAccount -> A) (Q : A -> list SubAccount -> Prop) E :
  (forall t, P t -> Q (f t) t) -> (forall t, P t -> E t) ->
  ensures P (select f) Q E.
Proof. intros HQ HE. apply ensures_statement; simpl; auto. Qed.

Lemma ensures_run P f (Q : unit -> list SubAccount -> Prop) E :
  (forall now t, P t -> Q tt (f now t)) -> (forall t, P t -> E t) ->
  ensures P (run f) Q E.
Proof. intros HQ HE. apply ensures_statement; simpl; auto. Qed.

Lemma reads_only_ret {A} (a : A) : reads_only (ret a).
Proof. intros P. apply ensures_ret. auto. Qed.

Lemma reads_only_throw {A} e : reads_only (@throw A e).
Proof. intros P w Hw. exact Hw. Qed.

Lemma reads_only_bind {A B} (c : M A) (k : A -> M B) :
  reads_only c -> (forall a, reads_only (k a)) -> reads_only (bind c k).
Proof. intros Hc Hk P. eapply ensures_bind; [apply Hc | intros a; apply Hk]. Qed.

Lemma reads_only_try_catch {A} (c : M A) h :
  reads_only c -> (forall e, reads_only (h e)) -> reads_only (try_catch c h).
Proof. intros Hc Hh P. eapply ensures_try_catch; [apply Hc | intros e; apply Hh]. Qed.

Lemma reads_only_select {A} (f : list SubAccount -> A) : reads_only (select f).
Proof. intros P. apply ensures_select; auto. Qed.

Lemma reads_only_initDb : reads_only initDb.
Proof. intros P. apply ensures_run; auto. Qed.

Lemma reads_only_fetch q : reads_only (fetch q).
Proof.
  intros P w Hw. unfold fetch.
  destruct (upstream w (http_log w) q); exact Hw.
Qed.

Lemma reads_only_request c m path o : reads_only (request c m path o).
Proof.
  unfold request. apply reads_only_bind; [apply reads_only_fetch|].
  intros resp. destruct (negb (ok resp)); [apply reads_only_throw|].
  destruct (json resp); [apply reads_only_throw | apply reads_only_ret].
Qed.

Lemma reads_only_resolveClient env l : reads_only (resolveClient env l).
Proof.
  unfold resolveClient. apply reads_only_bind; [apply reads_only_initDb|].
  intros _. destruct (truthy l).
  - apply reads_only_bind; [apply reads_only_select|].
    intros [a|]; apply reads_only_ret.
  - apply reads_only_bind; [apply reads_only_select|].
    intros [a|]; apply reads_only_ret.
Qed.

Lemma reads_only_error_response e : reads_only (error_response e).
Proof. apply reads_only_ret. Qed.

Lemma reads_only_create_each c l fields :
  forall results, reads_only (create_each c l fields results).
Proof.
  induction fields as [|f r IH]; intros results; simpl.
  - apply reads_only_ret.
  - apply reads_only_bind; [|intros a; apply IH].
    unfold create_one. apply reads_only_try_catch.
    + apply reads_only_bind; [apply reads_only_request | intros; apply reads_only_ret].
    + intros e. apply reads_only_ret.
Qed.

Create HintDb reads discriminated.
#[local] Hint Resolve reads_only_ret reads_only_throw reads_only_select
  reads_only_initDb reads_only_fetch reads_only_request reads_only_resolveClient
  reads_only_error_response reads_only_create_each : reads.

Ltac reads_only_tac :=
  repeat first
    [ solve [auto with reads]
    | apply reads_only_try_catch
    | apply reads_only_bind
    | match goal with |- forall _, _ => intro end ].

(* ================================================================== *)
(** * The statements and the registry invariant *)
(* ================================================================== *)






Lemma defaults_app t u : defaults (t ++ u) = (defaults t + defaults u)%nat.
Proof. unfold defaults. now rewrite filter_app, length_app. Qed.




Lemma defaults_insert_or_replace l n k ty d no now t :
  defaults (insert_or_replace l n k ty d no now t)
  = (defaults (delete_by_id l t) + (if Z.eqb d 1 then 1 else 0))%nat.
Proof.
  unfold insert_or_replace. rewrite defaults_app. f_equal.
  unfold defaults, flagged. simpl. destruct (Z.eqb d 1); reflexivity.
Qed.




(* ================================================================== *)
(** * Every tool keeps the registry invariant *)
(* ================================================================== *)








Section AgentInvariant.

Variable env : Env.
Variable stringify : Json -> string.

Lemma reads_only_list_sub_accounts : reads_only (ghl_list_sub_accounts stringify).
Proof.
  unfold ghl_list_sub_accounts.
  apply reads_only_try_catch; [|auto with reads].
  apply reads_only_bind; [auto with reads|intros _].
  apply reads_only_bind; [auto with reads|intros [|a r]]; auto with reads.
Qed.

Lemma reads_only_bulk fields l :
  reads_only (ghl_bulk_create_contact_custom_fields env stringify fields l).
Proof. unfold ghl_bulk_create_contact_custom_fields. reads_only_tac. Qed.


End AgentInvariant.

(* ================================================================== *)
(** * Tenant resolution *)
(* ================================================================== *)

Lemma find_by_id t a :
  primary_key t -> In a t -> find (fun b => String.eqb (id b) (id a)) t = Some a.
Proof.
  unfold primary_key. induction t as [|b t IH]; simpl; intros Hk Hin; [destruct Hin|].
  inversion Hk as [|x xs Hn Hd]; subst.
  destruct Hin as [E|Hin].
  - subst b. now rewrite String.eqb_refl.
  - destruct (String.eqb_spec (id b) (id a)) as [E|N]; [|now apply IH].
    exfalso. apply Hn. rewrite E. now apply in_map.
Qed.

Lemma find_absent (f : SubAccount -> bool) t :
  (forall a, In a t -> f a = false) -> find f t = None.
Proof.
  induction t as [|b t IH]; simpl; intros H; [reflexivity|].
  rewrite (H b (or_introl eq_refl)). apply IH. intros a Ha. apply H. now right.
Qed.

Lemma find_present (f : SubAccount -> bool) t :
  (exists a, In a t /\ f a = true) -> exists a, find f t = Some a.
Proof.
  induction t as [|b t IH]; simpl; intros (a & Ha & Fa); [destruct Ha|].
  destruct (f b) eqn:Fb; [eauto|].
  destruct Ha as [E|Ha]; [subst; congruence|]. apply IH. eauto.
Qed.

Lemma at_most_one_flagged t a b :
  (defaults t <= 1)%nat -> In a t -> flagged a = true -> In b t -> flagged b = true -> b = a.
Proof.
  unfold defaults. intros H Ha Fa Hb Fb.
  assert (Ia : In a (filter flagged t)) by (apply filter_In; auto).
  assert (Ib : In b (filter flagged t)) by (apply filter_In; auto).
  destruct (filter flagged t) as [|x [|y r]]; simpl in *; try lia; try tauto.
  destruct Ia as [Ia|[]], Ib as [Ib|[]]. congruence.
Qed.

(** In a healthy world resolution issues two statements and returns. *)
Lemma resolveClient_healthy env l w :
  db_healthy w = true ->
  resolveClient env l w
  = (Returned
       (if truthy l then
          match find (fun a => String.eqb (id a) (or_else l "")) (table w) with
          | Some a => mkGHLClient (api_key a) (id a)
          | None => mkGHLClient (GHL_API_KEY env) (or_else l "")
          end
        else
          match find (fun a => Z.eqb (is_default a) 1) (table w) with
          | Some a => mkGHLClient (api_key a) (id a)
          | None => mkGHLClient (GHL_API_KEY env) (GHL_LOCATION_ID env)
          end),
     advance (advance w)).
Proof.
  intros H. unfold resolveClient, bind.
  rewrite (initDb_healthy _ H).
  assert (H1 : db_healthy (set_table (table w) (advance w)) = true)
    by (rewrite healthy_set_table; now apply healthy_advance).
  destruct (truthy l).
  - unfold getAccountById. rewrite (select_healthy _ _ H1). simpl.
    destruct (find _ (table w)); reflexivity.
  - unfold getDefaultAccount. rewrite (select_healthy _ _ H1). simpl.
    destruct (find _ (table w)); reflexivity.
Qed.

(** C1 (amended). With a working registry, resolution follows the order:
    (1) a non-empty identifier that is registered gives that registration's
    credential and identifier, whatever the default flags; (2) a non-empty
    identifier that is not registered gives the fallback credential with
    the identifier; (3) no identifier, or the empty string, gives a
    registration flagged default when there is one (the only one under the
    invariant); (4) otherwise the fallback credential and tenant. *)
Theorem resolveClient_order env l w :
  db_healthy w = true ->
  (forall i a, l = Some i -> i <> "" -> primary_key (table w) ->
     In a (table w) -> id a = i ->
     fst (resolveClient env l w) = Returned (mkGHLClient (api_key a) i))
  /\ (forall i, l = Some i -> i <> "" ->
        (forall a, In a (table w) -> id a <> i) ->
        fst (resolveClient env l w) = Returned (mkGHLClient (GHL_API_KEY env) i))
  /\ (l = None \/ l = Some "" ->
        (exists a, In a (table w) /\ is_default a = 1%Z) ->
        exists a, In a (table w) /\ is_default a = 1%Z
          /\ fst (resolveClient env l w) = Returned (mkGHLClient (api_key a) (id a))
          /\ ((defaults (table w) <= 1)%nat ->
              forall b, In b (table w) -> is_default b = 1%Z -> b = a))
  /\ (l = None \/ l = Some "" ->
        (forall a, In a (table w) -> is_default a <> 1%Z) ->
        fst (resolveClient env l w)
        = Returned (mkGHLClient (GHL_API_KEY env) (GHL_LOCATION_ID env))).
Proof.
  intros H. rewrite (resolveClient_healthy env l w H). simpl.
  repeat split.
  - intros i a El Ni Hk Hin Ea. subst l.
    assert (T : truthy (Some i) = true) by (apply truthy_true; eauto).
    rewrite T, (or_else_truthy _ _ Ni), <- Ea, (find_by_id _ _ Hk Hin). reflexivity.
  - intros i El Ni Hno. subst l.
    assert (T : truthy (Some i) = true) by (apply truthy_true; eauto).
    rewrite T, (or_else_truthy _ _ Ni), find_absent; [reflexivity|].
    intros a Ha. apply String.eqb_neq. auto.
  - intros El (a & Ha & Da). apply truthy_false in El. rewrite El.
    destruct (find_present (fun a => Z.eqb (is_default a) 1) (table w)) as (b & Eb).
    { exists a. split; [exact Ha | now apply Z.eqb_eq]. }
    rewrite Eb. apply find_some in Eb. destruct Eb as [Hb Fb].
    exists b. repeat split; [exact Hb | now apply Z.eqb_eq |].
    intros Hle c Hc Dc. apply (at_most_one_flagged _ _ _ Hle); auto.
    unfold flagged. now apply Z.eqb_eq.
  - intros El Hno. apply truthy_false in El. rewrite El.
    rewrite find_absent; [reflexivity|].
    intros a Ha. apply Z.eqb_neq. auto.
Qed.

(** C1 as stated fails on the empty string: it is an identifier that was
    supplied and has no registration, yet resolution does not pair it with
    the fallback credential; it returns the default registration. *)
Lemma resolveClient_empty_identifier :
  let w := world_of [acme; smith] [] in
  db_healthy w = true
  /\ (forall a, In a (table w) -> id a <> "")
  /\ fst (resolveClient env0 (Some "") w) = Returned (mkGHLClient "pit-acme" "loc_123")
  /\ fst (resolveClient env0 (Some "") w) <> Returned (mkGHLClient (GHL_API_KEY env0) "").
Proof.
  simpl. repeat split.
  - intros a [E|[E|[]]]; subst a; discriminate.
  - discriminate.
Qed.

Lemma resolveClient_order_witness :
  fst (resolveClient env0 (Some "loc_456") (world_of [acme; smith] []))
    = Returned (mkGHLClient "pit-smith" "loc_456")
  /\ fst (resolveClient env0 (Some "loc_789") (world_of [acme; smith] []))
     = Returned (mkGHLClient "pit-fallback" "loc_789")
  /\ (exists a, In a [acme; smith] /\ is_default a = 1%Z
        /\ fst (resolveClient env0 None (world_of [acme; smith] []))
           = Returned (mkGHLClient (api_key a) (id a))
        /\ ((defaults [acme; smith] <= 1)%nat ->
            forall b, In b [acme; smith] -> is_default b = 1%Z -> b = a))
  /\ fst (resolveClient env0 None (world_of [smith] []))
     = Returned (mkGHLClient "pit-fallback" "loc_env").
Proof.
  split; [|split; [|split]].
  - apply (proj1 (resolveClient_order env0 (Some "loc_456")
                    (world_of [acme; smith] []) eq_refl) "loc_456" smith eq_refl);
      [discriminate | | simpl; tauto | reflexivity].
    repeat constructor; simpl; intuition discriminate.
  - apply (proj1 (proj2 (resolveClient_order env0 (Some "loc_789")
                           (world_of [acme; smith] []) eq_refl)) "loc_789" eq_refl);
      [discriminate|].
    intros a [E|[E|[]]]; subst a; discriminate.
  - apply (proj1 (proj2 (proj2 (resolveClient_order env0 None
                                   (world_of [acme; smith] []) eq_refl)))).
    + now left.
    + exists acme. simpl. auto.
  - apply (proj2 (proj2 (proj2 (resolveClient_order env0 None
                                   (world_of [smith] []) eq_refl)))).
    + now left.
    + intros a [E|[]]; subst a; discriminate.
Defined.

Lemma obj_get_set k v o : obj_get k (obj_set k v o) = Some v.
Proof.
  induction o as [|[k' v'] o IH]; simpl.
  - now rewrite String.eqb_refl.
  - destruct (String.eqb k' k) eqn:E; simpl.
    + now rewrite String.eqb_refl.
    + now rewrite E.
Qed.

Lemma obj_set_set k v v' o : obj_set k v (obj_set k v' o) = obj_set k v o.
Proof.
  induction o as [|[k' u] o IH]; simpl.
  - now rewrite String.eqb_refl.
  - destruct (String.eqb k' k) eqn:E; simpl.
    + now rewrite String.eqb_refl.
    + now rewrite E, IH.
Qed.

Lemma located_body_empty c data :
  located_body c (obj_set "locationId" (JStr "") data)
  = Some (object (obj_set "locationId" (JStr (locationId c)) data)).
Proof.
  unfold located_body, locationId_of. rewrite obj_get_set, obj_set_set. reflexivity.
Qed.

(** C10. The empty string as tenant identifier behaves like no identifier:
    [resolveClient] is the same computation for both, and every facade
    method that takes a location sends, for the empty string, the request
    it sends for none, addressed to the client's own location in the path,
    the query or the body. *)
Theorem empty_identifier_is_omitted env c :
  resolveClient env (Some "") = resolveClient env None
  /\ (forall k,
        getCustomFieldsByObjectKey c k (Some "") = getCustomFieldsByObjectKey c k None
        /\ getCustomFieldsByObjectKey c k (Some "")
           = request c "GET" ("/custom-fields/object-key/" ++ k)
               (mkOptions None (Some [("locationId", locationId c)]) v2021))
  /\ (forall i,
        deleteCustomFieldFolder c i (Some "") = deleteCustomFieldFolder c i None
        /\ deleteCustomFieldFolder c i (Some "")
           = request c "DELETE" ("/custom-fields/folder/" ++ i)
               (mkOptions None (Some [("locationId", locationId c)]) v2021))
  /\ (forall data,
        let sent := Some (object (obj_set "locationId" (JStr (locationId c)) data)) in
        let empty := obj_set "locationId" (JStr "") data in
        createCustomField c empty
          = request c "POST" "/custom-fields/" (mkOptions sent None v2021)
        /\ createCustomFieldFolder c empty
           = request c "POST" "/custom-fields/folder" (mkOptions sent None v2021)
        /\ (forall i,
              updateCustomField c i empty
                = request c "PUT" ("/custom-fields/" ++ i) (mkOptions sent None v2021)
              /\ updateCustomFieldFolder c i empty
                 = request c "PUT" ("/custom-fields/folder/" ++ i)
                     (mkOptions sent None v2021)))
  /\ (getLocationCustomFields c (Some "") = getLocationCustomFields c None
      /\ getLocationCustomFields c (Some "")
         = request c "GET" ("/locations/" ++ locationId c ++ "/customFields")
             (mkOptions None None v2021))
  /\ (getCustomValues c (Some "") = getCustomValues c None
      /\ getCustomValues c (Some "")
         = request c "GET" ("/locations/" ++ locationId c ++ "/customValues")
             (mkOptions None None v2021))
  /\ (forall i,
        (getLocationCustomField c i (Some "") = getLocationCustomField c i None
         /\ getLocationCustomField c i (Some "")
            = request c "GET" ("/locations/" ++ locationId c ++ "/customFields/" ++ i)
                (mkOptions None None v2021))
        /\ (deleteLocationCustomField c i (Some "") = deleteLocationCustomField c i None
            /\ deleteLocationCustomField c i (Some "")
               = request c "DELETE"
                   ("/locations/" ++ locationId c ++ "/customFields/" ++ i)
                   (mkOptions None None v2021))
        /\ (getCustomValue c i (Some "") = getCustomValue c i None
            /\ getCustomValue c i (Some "")
               = request c "GET" ("/locations/" ++ locationId c ++ "/customValues/" ++ i)
                   (mkOptions None None v2021))
        /\ (deleteCustomValue c i (Some "") = deleteCustomValue c i None
            /\ deleteCustomValue c i (Some "")
               = request c "DELETE"
                   ("/locations/" ++ locationId c ++ "/customValues/" ++ i)
                   (mkOptions None None v2021)))
  /\ (forall data,
        (createLocationCustomField c data (Some "") = createLocationCustomField c data None
         /\ createLocationCustomField c data (Some "")
            = request c "POST" ("/locations/" ++ locationId c ++ "/customFields")
                (mkOptions (Some (object data)) None v2021))
        /\ (createCustomValue c data (Some "") = createCustomValue c data None
            /\ createCustomValue c data (Some "")
               = request c "POST" ("/locations/" ++ locationId c ++ "/customValues")
                   (mkOptions (Some (object data)) None v2021))
        /\ (forall i,
              (updateLocationCustomField c i data (Some "")
                 = updateLocationCustomField c i data None
               /\ updateLocationCustomField c i data (Some "")
                  = request c "PUT"
                      ("/locations/" ++ locationId c ++ "/customFields/" ++ i)
                      (mkOptions (Some (object data)) None v2021))
              /\ (updateCustomValue c i data (Some "") = updateCustomValue c i data None
                  /\ updateCustomValue c i data (Some "")
                     = request c "PUT"
                         ("/locations/" ++ locationId c ++ "/customValues/" ++ i)
                         (mkOptions (Some (object data)) None v2021)))).
Proof.
  split; [reflexivity|].
  split; [intros k; split; reflexivity|].
  split; [intros i; split; reflexivity|].
  split.
  { intros data sent empty. subst sent empty.
    unfold createCustomField, createCustomFieldFolder, updateCustomField,
      updateCustomFieldFolder.
    rewrite located_body_empty. repeat split. }
  repeat split.
Qed.

(* ================================================================== *)
(** * The default flag along a sequential execution *)
(* ================================================================== *)



(** In a healthy world a registration succeeds and appends the row. *)
Lemma add_sub_account_healthy l n k ty d no w :
  db_healthy w = true ->
  exists r w',
    ghl_add_sub_account l n k ty d no w = (Returned r, w')
    /\ isError r = false
    /\ table w'
       = insert_or_replace l n k (accountType_name ty) (if d then 1 else 0)
           (if truthy no then no else None) (clock w)
           (if d then clear_defaults (table w) else table w).
Proof.
  intros H. unfold ghl_add_sub_account, try_catch, bind.
  rewrite (initDb_healthy _ H).
  assert (H1 : db_healthy (set_table (table w) (advance w)) = true)
    by (rewrite healthy_set_table; now apply healthy_advance).
  destruct d.
  - rewrite (run_healthy _ _ H1).
    match goal with |- context [run ?f ?x] =>
      assert (H2 : db_healthy x = true)
        by (rewrite healthy_set_table; now apply healthy_advance);
      rewrite (run_healthy f x H2) end.
    eexists _, _. repeat split.
  - unfold ret at 1.
    rewrite (run_healthy _ _ H1). eexists _, _. repeat split.
Qed.

(** The scenario of the specification: registering a second default moves
    the flag. *)
Example second_default_takes_over :
  map (fun s => map (fun a => (id a, is_default a)) (table (after s)))
    (execution env0 compact
       [("2024-06-01 12:00:00",
         AddSubAccount "loc_123" "Acme" "pit-acme" sub_account true None);
        ("2024-06-01 12:05:00",
         AddSubAccount "loc_456" "Dr. Smith Dental" "pit-smith" sub_account true None)]
       (world_of [] []))
  = [[("loc_123", 1%Z)]; [("loc_123", 0%Z); ("loc_456", 1%Z)]].
Proof. reflexivity. Qed.

(* ================================================================== *)
(** * Removal and token rotation *)
(* ================================================================== *)

Lemma removal_leaves_table l t0 :
  (forall a, In a t0 -> id a <> l) ->
  ensures (eq t0) (ghl_remove_sub_account l)
    (fun r t => t = t0 /\ isError r = true) (fun _ => False).
Proof.
  intros Hno. unfold ghl_remove_sub_account.
  apply ensures_try_catch with (E' := eq t0).
  - apply ensures_bind with (R := fun _ => eq t0); [apply ensures_run; auto|intros _].
    apply ensures_bind with (R := fun acc t => t0 = t /\ acc = None).
    + apply ensures_select; [|auto]. intros t E. subst t. split; [reflexivity|].
      apply find_absent. intros a Ha. apply String.eqb_neq. auto.
    + intros acc. destruct acc as [a|].
      * intros w [_ E]. discriminate.
      * apply ensures_ret. intros t [E _]. auto.
  - intros e. apply ensures_ret. intros t E. auto.
Qed.

(** C6. Removing an identifier that has no registration answers with an
    error response and leaves the table as it was; when the database
    statements succeed the answer is the not-found message. *)
Theorem remove_unregistered l w :
  (forall a, In a (table w) -> id a <> l) ->
  table (snd (ghl_remove_sub_account l w)) = table w
  /\ (exists r, fst (ghl_remove_sub_account l w) = Returned r /\ isError r = true)
  /\ (db_healthy w = true ->
      fst (ghl_remove_sub_account l w)
      = Returned (mkToolResponse "Account not found." true)).
Proof.
  intros Hno.
  pose proof (removal_leaves_table l (table w) Hno w eq_refl) as H.
  split; [|split].
  - destruct (ghl_remove_sub_account l w) as [[r|e] w']; simpl; tauto.
  - destruct (ghl_remove_sub_account l w) as [[r|e] w']; simpl; [|tauto].
    exists r. tauto.
  - intros Hh. unfold ghl_remove_sub_account, try_catch, bind.
    rewrite (initDb_healthy _ Hh).
    assert (H1 : db_healthy (set_table (table w) (advance w)) = true)
      by (rewrite healthy_set_table; now apply healthy_advance).
    unfold getAccountById. rewrite (select_healthy _ _ H1). simpl.
    rewrite find_absent; [reflexivity|].
    intros a Ha. apply String.eqb_neq. auto.
Qed.

Lemma remove_unregistered_witness :
  table (snd (ghl_remove_sub_account "loc_789" (world_of [acme; smith] [])))
    = [acme; smith]
  /\ (exists r, fst (ghl_remove_sub_account "loc_789" (world_of [acme; smith] []))
                = Returned r /\ isError r = true)
  /\ (db_healthy (world_of [acme; smith] []) = true ->
      fst (ghl_remove_sub_account "loc_789" (world_of [acme; smith] []))
      = Returned (mkToolResponse "Account not found." true)).
Proof.
  apply (remove_unregistered "loc_789" (world_of [acme; smith] [])).
  intros a [E|[E|[]]]; subst a; discriminate.
Defined.

Lemma set_api_key_rotated k l now t : Forall2 (rotated l k) t (set_api_key k l now t).
Proof.
  induction t as [|a t IH]; simpl; constructor; [|exact IH].
  unfold rotated. destruct (String.eqb_spec (id a) l); simpl; intuition congruence.
Qed.

Lemma update_token_ensures l k t0 :
  ensures (eq t0) (ghl_update_sub_account_token l k)
    (fun r t => isError r = false ->
                (exists a, In a t0 /\ id a = l)
                /\ exists now, t = set_api_key k l now t0)
    (fun _ => False).
Proof.
  unfold ghl_update_sub_account_token.
  apply ensures_try_catch with (E' := fun _ => True).
  - apply ensures_bind with (R := fun _ => eq t0); [apply ensures_run; auto|intros _].
    apply ensures_bind
      with (R := fun acc t => t0 = t /\ forall a, acc = Some a -> In a t0 /\ id a = l).
    + apply ensures_select; [|auto]. intros t E. subst t. split; [reflexivity|].
      intros a Ha. apply find_some in Ha. destruct Ha as [Ha Ea].
      split; [exact Ha | now apply String.eqb_eq].
    + intros [a|].
      * apply ensures_bind
          with (R := fun _ t => (exists a, In a t0 /\ id a = l)
                                /\ exists now, t = set_api_key k l now t0).
        { apply ensures_run; [|auto]. intros now t [E Hin]. subst t.
          split; [exists a; now apply Hin | now exists now]. }
        intros _. apply ensures_ret. auto.
      * apply ensures_ret. intros t _. simpl. discriminate.
  - intros e. apply ensures_ret. intros t _. simpl. discriminate.
Qed.

(** C9. A token rotation that reports success found the identifier
    registered, and changes nothing but the credential and the update
    timestamp of that row: every row keeps its place, identifier, name,
    account type, default flag, notes and creation timestamp, and the rows
    of other identifiers are unchanged. *)
Theorem token_rotation_frame l k w r w' :
  ghl_update_sub_account_token l k w = (Returned r, w') ->
  isError r = false ->
  (exists a, In a (table w) /\ id a = l)
  /\ Forall2 (rotated l k) (table w) (table w')
  /\ table w' = set_api_key k l (clock w) (table w).
Proof.
  intros E Hr.
  pose proof (update_token_ensures l k (table w) w eq_refl) as H.
  rewrite E in H. destruct (H Hr) as [Hin [now Ht]].
  split; [exact Hin|]. split; [rewrite Ht; apply set_api_key_rotated|].
  revert E. unfold ghl_update_sub_account_token, try_catch, bind, initDb, run,
    getAccountById, select, statement.
  destruct (next_fault w); simpl.
  { intros E. inversion E. subst r. discriminate. }
  destruct (next_fault _); simpl.
  { intros E. inversion E. subst r. discriminate. }
  destruct (find _ (table w)); simpl.
  - destruct (next_fault _); simpl.
    + intros E. inversion E. subst r. discriminate.
    + intros E. inversion E. reflexivity.
  - intros E. inversion E. subst r. discriminate.
Qed.

Lemma token_rotation_frame_witness :
  (exists a, In a [acme; smith] /\ id a = "loc_456")
  /\ Forall2 (rotated "loc_456" "pit-new") [acme; smith]
       (table (snd (ghl_update_sub_account_token "loc_456" "pit-new"
                      (world_of [acme; smith] []))))
  /\ table (snd (ghl_update_sub_account_token "loc_456" "pit-new"
                   (world_of [acme; smith] [])))
     = set_api_key "pit-new" "loc_456" "2024-06-01 12:00:00" [acme; smith].
Proof.
  apply (token_rotation_frame "loc_456" "pit-new" (world_of [acme; smith] [])
           (text_response ("API token updated for " ++ dq ++ "Dr. Smith Dental" ++ dq
                             ++ " (loc_456)"))
           (snd (ghl_update_sub_account_token "loc_456" "pit-new"
                   (world_of [acme; smith] [])))); reflexivity.
Defined.

(** In a healthy world, rotating the token of a registered identifier
    succeeds. *)
Lemma token_rotation_succeeds l k w a :
  db_healthy w = true -> In a (table w) -> id a = l ->
  exists b w',
    ghl_update_sub_account_token l k w
    = (Returned (text_response ("API token updated for " ++ dq ++ name b ++ dq
                                  ++ " (" ++ l ++ ")")), w')
    /\ In b (table w) /\ id b = l.
Proof.
  intros H Ha Ea. unfold ghl_update_sub_account_token, try_catch, bind.
  rewrite (initDb_healthy _ H).
  assert (H1 : db_healthy (set_table (table w) (advance w)) = true)
    by (rewrite healthy_set_table; now apply healthy_advance).
  unfold getAccountById. rewrite (select_healthy _ _ H1). simpl.
  destruct (find_present (fun b => String.eqb (id b) l) (table w)) as (b & Eb).
  { exists a. split; [exact Ha | now apply String.eqb_eq]. }
  rewrite Eb. apply find_some in Eb. destruct Eb as [Hb Fb].
  match goal with |- context [run ?f ?x] =>
    assert (H2 : db_healthy x = true)
      by (rewrite healthy_set_table; now apply healthy_advance);
    rewrite (run_healthy f x H2) end.
  eexists b, _. split; [reflexivity|]. split; [exact Hb | now apply String.eqb_eq].
Qed.

(* ================================================================== *)
(** * Listing masks the credentials *)
(* ================================================================== *)

Lemma listed_redact a : listed (redact a) = listed a.
Proof. reflexivity. Qed.

Lemma insert_by_name_redact a t :
  map redact (insert_by_name a t) = insert_by_name (redact a) (map redact t).
Proof.
  induction t as [|b t IH]; simpl; [reflexivity|].
  destruct (String.leb (name a) (name b)); simpl; [reflexivity | now rewrite IH].
Qed.

Lemma order_by_name_redact t :
  map redact (order_by_name t) = order_by_name (map redact t).
Proof.
  induction t as [|a t IH]; simpl; [reflexivity|].
  now rewrite insert_by_name_redact, IH.
Qed.

Lemma listing_redact t :
  map listed (order_by_name t) = map listed (order_by_name (map redact t)).
Proof.
  rewrite <- order_by_name_redact, map_map. apply map_ext.
  intros a. symmetry. apply listed_redact.
Qed.

(** The answer of the list tool is a function of the fault schedule and of
    the rows as listed. *)
Lemma list_sub_accounts_answer stringify w :
  fst (ghl_list_sub_accounts stringify w)
  = match db_faults w with
    | Some e :: _ => Returned (mkToolResponse ("Error: " ++ e) true)
    | _ :: Some e :: _ => Returned (mkToolResponse ("Error: " ++ e) true)
    | _ =>
        match map listed (order_by_name (table w)) with
        | [] => Returned (text_response
                  "No sub-accounts registered yet. Use ghl_add_sub_account to add one.")
        | accounts =>
            Returned (text_response
                        (string_of_nat (length accounts) ++ " sub-account(s) registered:"
                           ++ nl ++ nl ++ stringify (JArr accounts)))
        end
    end.
Proof.
  unfold ghl_list_sub_accounts, try_catch, bind, initDb, run, select, statement, next_fault.
  destruct w as [t faults clk log up]. unfold advance. simpl.
  destruct faults as [|[e|] [|[e'|] r]];
    try reflexivity; simpl; destruct (order_by_name t); reflexivity.
Qed.

(** C7. The output of the list tool does not depend on the stored
    credentials: two worlds whose registries differ only in the [api_key]
    of their rows get the same answer. *)
Theorem list_sub_accounts_masks_credentials stringify w1 w2 :
  db_faults w1 = db_faults w2 ->
  map redact (table w1) = map redact (table w2) ->
  fst (ghl_list_sub_accounts stringify w1) = fst (ghl_list_sub_accounts stringify w2).
Proof.
  intros Hf Ht. rewrite !list_sub_accounts_answer, Hf.
  rewrite (listing_redact (table w1)), (listing_redact (table w2)), Ht. reflexivity.
Qed.

Lemma list_sub_accounts_masks_credentials_witness :
  fst (ghl_list_sub_accounts compact (world_of [acme; smith] []))
  = fst (ghl_list_sub_accounts compact
           (world_of [mkSubAccount "loc_123" "Acme" "pit-rotated" "sub_account" 1 None
                        "2024-01-01 00:00:00" "2024-01-01 00:00:00"; smith] [])).
Proof.
  apply list_sub_accounts_masks_credentials; reflexivity.
Defined.

(** The listing of the specification's scenario: one entry, flagged YES,
    and no credential in the text. *)
Example listing_shows_no_credential :
  let r := fst (ghl_list_sub_accounts compact (world_of [acme] [])) in
  (exists resp, r = Returned resp
     /\ includes "1 sub-account(s) registered:" (content resp) = true
     /\ includes (dq ++ "is_default" ++ dq ++ ":" ++ dq ++ "YES" ++ dq) (content resp) = true
     /\ includes "pit-acme" (content resp) = false).
Proof. eexists. repeat split. Qed.

(* ================================================================== *)
(** * The request primitive *)
(* ================================================================== *)

(** [request] sends one request and settles on the reply. *)
Lemma request_settles c m path o w :
  request c m path o w
  = (match settle (upstream w (http_log w) (request_of c m path o)) with
     | inl e => Thrown e
     | inr j => Returned j
     end,
     set_http_log (http_log w ++ [request_of c m path o]) w).
Proof.
  unfold request, bind, fetch, settle.
  destruct (upstream w (http_log w) (request_of c m path o)) as [e|resp]; [reflexivity|].
  destruct (ok resp); simpl; [|reflexivity].
  destruct (json resp); reflexivity.
Qed.

(** C5. Every call of [request] sends exactly one request. A reply whose
    status is not a success makes the call fail with a message made of the
    status code, the status text and the raw body; a success reply yields
    what [resp.json()] yields, unchecked. A tool that runs into the former
    answers with that message behind [Error: ] and the error flag. *)
Theorem request_error_translation :
  (forall c m path o w,
     snd (request c m path o w)
     = set_http_log (http_log w ++ [request_of c m path o]) w
     /\ (forall resp,
           upstream w (http_log w) (request_of c m path o) = Replied resp ->
           ok resp = false ->
           fst (request c m path o w) = Thrown (api_error resp))
     /\ (forall resp,
           upstream w (http_log w) (request_of c m path o) = Replied resp ->
           ok resp = true ->
           fst (request c m path o w)
           = match json resp with
             | inr j => Returned j
             | inl e => Thrown e
             end))
  /\ (forall env stringify p w client w1 resp,
        resolveClient env (CreateContactField.locationId p) w = (Returned client, w1) ->
        upstream w1 (http_log w1)
          (request_of client "POST" ("/locations/" ++ locationId client ++ "/customFields")
             (mkOptions (Some (object (CreateContactField.data p))) None v2021))
        = Replied resp ->
        ok resp = false ->
        fst (ghl_create_contact_custom_field env stringify p w)
        = Returned (mkToolResponse ("Error: " ++ api_error resp) true)).
Proof.
  split.
  - intros c m path o w. rewrite request_settles. split; [reflexivity|]. split.
    + intros resp E Hok. rewrite E. simpl. now rewrite Hok.
    + intros resp E Hok. rewrite E. simpl. rewrite Hok.
      destruct (json resp); reflexivity.
  - intros env stringify p w client w1 resp Er Eu Hok.
    unfold ghl_create_contact_custom_field, try_catch, bind. rewrite Er.
    unfold createLocationCustomField. simpl or_else.
    rewrite request_settles, Eu. simpl. rewrite Hok. reflexivity.
Qed.

Lemma request_error_translation_witness :
  fst (request (mkGHLClient "pit-acme" "loc_123") "POST" "/locations/loc_123/customFields"
         (mkOptions (Some (object (CreateContactField.data pet_name))) None v2021)
         (busy_world unprocessable))
    = Thrown (api_error unprocessable)
  /\ fst (request (mkGHLClient "pit-acme" "loc_123") "POST"
            "/locations/loc_123/customFields"
            (mkOptions (Some (object (CreateContactField.data pet_name))) None v2021)
            (busy_world created))
     = Returned (JObj [])
  /\ fst (ghl_create_contact_custom_field env0 compact pet_name (busy_world unprocessable))
     = Returned (mkToolResponse ("Error: " ++ api_error unprocessable) true).
Proof.
  split; [|split].
  - apply (proj1 (proj2 (proj1 request_error_translation _ _ _ _
                           (busy_world unprocessable))) unprocessable); reflexivity.
  - apply (proj2 (proj2 (proj1 request_error_translation _ _ _ _
                           (busy_world created))) created); reflexivity.
  - apply (proj2 request_error_translation env0 compact pet_name
             (busy_world unprocessable) (mkGHLClient "pit-acme" "loc_123")
             (advance (advance (busy_world unprocessable))) unprocessable); reflexivity.
Defined.

(** The example of the specification: a 422 whose body is
    [{"message":"duplicate fieldKey"}] surfaces as an error response that
    carries 422 and the body text. *)
Example duplicate_field_key_surfaces :
  exists resp,
    fst (ghl_create_contact_custom_field env0 compact pet_name (busy_world unprocessable))
    = Returned resp
    /\ isError resp = true
    /\ includes "422" (content resp) = true
    /\ includes "Unprocessable Entity" (content resp) = true
    /\ includes duplicate_body (content resp) = true.
Proof. eexists. repeat split. Qed.

(* ================================================================== *)
(** * Bulk creation *)
(* ================================================================== *)

Lemma create_one_settles client l f results w :
  create_one client l f results w
  = (Returned (results ++ [item_record f (settle (upstream w (http_log w)
                                                    (item_request client l f)))])%list,
     set_http_log (http_log w ++ [item_request client l f]) w).
Proof.
  unfold create_one, try_catch, bind, createLocationCustomField.
  rewrite request_settles. fold (item_request client l f).
  destruct (settle _); reflexivity.
Qed.

Lemma create_each_settles client l fields :
  forall results w,
    create_each client l fields results w
    = (Returned (results ++ item_records fields
                   (exchanges (upstream w) (http_log w)
                      (map (item_request client l) fields)))%list,
       set_http_log (http_log w ++ map (item_request client l) fields) w).
Proof.
  induction fields as [|f r IH]; intros results w; simpl.
  - unfold ret, item_records. simpl. rewrite !app_nil_r. now destruct w.
  - unfold bind. rewrite create_one_settles, IH. simpl.
    unfold item_records. simpl. rewrite <- !app_assoc. reflexivity.
Qed.

Lemma exchanges_length up qs : forall log, length (exchanges up log qs) = length qs.
Proof. induction qs as [|q r IH]; intros log; simpl; [reflexivity | now rewrite IH]. Qed.

Lemma item_records_counts fields : forall outs,
  length outs = length fields ->
  length (filter ItemResult.success (item_records fields outs))
    = (length fields - length (filter failed outs))%nat
  /\ length (filter (fun r => negb (ItemResult.success r)) (item_records fields outs))
     = length (filter failed outs).
Proof.
  unfold item_records.
  induction fields as [|f r IH]; intros [|o outs] H; simpl in *; try discriminate;
    [split; reflexivity|].
  injection H as H. destruct (IH outs H) as [IH1 IH2].
  assert (Hle : (length (filter failed outs) <= length r)%nat)
    by (rewrite <- H; apply filter_length_le).
  destruct o as [e|j]; simpl; rewrite ?IH1, ?IH2; split; try lia;
    destruct (length (filter failed outs)); lia.
Qed.

Lemma item_records_nth fields : forall outs i f,
  length outs = length fields -> nth_error fields i = Some f ->
  exists o, nth_error outs i = Some o
            /\ nth_error (item_records fields outs) i = Some (item_record f o).
Proof.
  unfold item_records.
  induction fields as [|g r IH]; intros [|o outs] i f H Hf; simpl in *;
    try discriminate; destruct i as [|i]; simpl in *; try discriminate.
  - injection Hf as Hf. subst g. eauto.
  - injection H as H. now apply IH.
Qed.

Lemma bulk_reports stringify prefix client l fields w1 :
  reports_each_item stringify prefix client l fields w1
    (bind (create_each client l fields [])
       (fun results => ret (bulk_summary stringify prefix results)) w1).
Proof.
  unfold reports_each_item, bind. rewrite create_each_settles. simpl.
  set (outs := exchanges (upstream w1) (http_log w1) (map (item_request client l) fields)).
  assert (Hlen : length outs = length fields)
    by (unfold outs; now rewrite exchanges_length, length_map).
  destruct (item_records_counts fields outs Hlen) as [Hs Hf].
  split; [|split; [exact Hlen|split]].
  - unfold ret, bulk_summary, text_response. now rewrite Hs, Hf.
  - unfold item_records. rewrite length_map, length_combine. lia.
  - intros i f Hi. destruct (item_records_nth fields outs i f Hlen Hi) as (o & Ho & Hr).
    exists o. repeat split; auto. intros e Eo. rewrite Hr, Eo. reflexivity.
Qed.

(** C4. A bulk call that reaches the upstream sends one request per field
    definition, in order and whatever the earlier ones gave; with [m] of
    the exchanges failed its response counts [m] failures and the rest as
    successes, and each failed item's record carries the error message as
    it was thrown. This holds for the tool of version 2.0.0 once the tenant
    is resolved, and for the tool of version 1.0.0. *)
Theorem bulk_create_reports_each_item env stringify fields l w :
  (forall client w1,
     resolveClient env l w = (Returned client, w1) ->
     reports_each_item stringify "Bulk create: " client None fields w1
       (ghl_bulk_create_contact_custom_fields env stringify fields l w))
  /\ reports_each_item stringify "Bulk create complete: " (V1.createClient env) l fields w
       (V1.ghl_bulk_create_contact_custom_fields env stringify fields l w).
Proof.
  split.
  - intros client w1 E. unfold ghl_bulk_create_contact_custom_fields.
    unfold bind at 1. rewrite E. apply bulk_reports.
  - unfold V1.ghl_bulk_create_contact_custom_fields. apply bulk_reports.
Qed.

Lemma bulk_create_reports_each_item_witness :
  reports_each_item compact "Bulk create: " (mkGHLClient "pit-acme" "loc_123") None
    three_fields (advance (advance (world_of [acme; smith] [])))
    (ghl_bulk_create_contact_custom_fields env0 compact three_fields None
       (world_of [acme; smith] [])).
Proof.
  apply (proj1 (bulk_create_reports_each_item env0 compact three_fields None
                  (world_of [acme; smith] []))).
  reflexivity.
Defined.

(** Three definitions of which the second repeats the first: one failure,
    two successes, the upstream's message kept in the record. *)
Example bulk_create_one_duplicate :
  exists resp w',
    ghl_bulk_create_contact_custom_fields env0 compact three_fields None
      (world_of [acme; smith] []) = (Returned resp, w')
    /\ isError resp = false
    /\ prefix "Bulk create: 2 succeeded, 1 failed." (content resp) = true
    /\ length (http_log w') = 3%nat
    /\ includes ("GHL API Error 422: Unprocessable Entity - {") (content resp) = true.
Proof. eexists _, _. repeat split. Qed.

(* ================================================================== *)
(** * Failures that reach the transport *)
(* ================================================================== *)

Lemma try_catch_answers (body : M ToolResponse) w :
  exists r, fst (try_catch body error_response w) = Returned r.
Proof.
  unfold try_catch. destruct (body w) as [[r|e] w']; simpl; eauto.
Qed.

(** Every tool but the bulk one answers whatever happens. *)
Lemma guarded_tools_always_answer env stringify c w :
  (forall fields l, c <> BulkCreateContactCustomFields fields l) ->
  exists r, fst (handle env stringify c w) = Returned r.
Proof.
  intros Hc. destruct c; simpl; try apply try_catch_answers.
  exfalso. now apply (Hc fields l).
Qed.

(** The bulk tool resolves the tenant outside its [try]: a failing first
    statement is thrown to the caller. *)
Lemma bulk_create_lets_registry_failure_escape env stringify fields l w e :
  next_fault w = Some e ->
  ghl_bulk_create_contact_custom_fields env stringify fields l w = (Thrown e, advance w).
Proof.
  intros H. unfold ghl_bulk_create_contact_custom_fields, resolveClient, bind, initDb, run.
  now rewrite (statement_faulty _ _ _ H).
Qed.

(** C3 (failing input). With the database failing on its first statement,
    the bulk tool of version 2.0.0 throws instead of answering, and sends
    nothing; the single-field tool answers with an error response. *)
Theorem bulk_create_throws_when_registry_down :
  ghl_bulk_create_contact_custom_fields env0 compact three_fields None d1_down
  = (Thrown "D1_ERROR: Network connection lost.", advance d1_down)
  /\ http_log (advance d1_down) = []
  /\ fst (ghl_create_contact_custom_field env0 compact pet_name d1_down)
     = Returned (mkToolResponse "Error: D1_ERROR: Network connection lost." true).
Proof. repeat split. Qed.

(* ================================================================== *)
(** * Lookup by name *)
(* ================================================================== *)









(** [%] matches any prefix. *)
Lemma like_percent q s :
  like (String "%" q) s = true <-> exists s1 s2, s = s1 ++ s2 /\ like q s2 = true.
Proof.
  induction s as [|d r IH].
  - simpl. rewrite orb_false_r. split.
    + intros H. exists "", "". auto.
    + intros (s1 & s2 & E & H). destruct s1; simpl in E; [|discriminate]. now subst.
  - simpl in *. rewrite orb_true_iff, IH. split.
    + intros [H|(s1 & s2 & E & H)].
      * exists "", (String d r). auto.
      * exists (String d s1), s2. simpl. now rewrite E.
    + intros (s1 & s2 & E & H). destruct s1 as [|d' s1]; simpl in E.
      * left. now subst.
      * right. injection E as _ E. eauto.
Qed.






(** Set-default by a non-empty name, in a healthy world. *)
Lemma lookup_by_name_healthy s w :
  db_healthy w = true -> s <> "" ->
  fst (ghl_set_default_account None (Some s) w)
  = match find (name_matcher s) (table w) with
    | Some a => Returned (text_response ("Default account set to " ++ dq ++ name a ++ dq
                                           ++ " (" ++ id a ++ ")"))
    | None => Returned account_not_found
    end
  /\ table (snd (ghl_set_default_account None (Some s) w))
     = match find (name_matcher s) (table w) with
       | Some a => mark_default (id a) (clock w) (clear_defaults (table w))
       | None => table w
       end.
Proof.
  intros H Hs. unfold ghl_set_default_account, try_catch, bind.
  rewrite (initDb_healthy _ H).
  assert (H1 : db_healthy (set_table (table w) (advance w)) = true)
    by (rewrite healthy_set_table; now apply healthy_advance).
  assert (T : truthy (Some s) = true) by (apply truthy_true; eauto).
  rewrite T. change (truthy None) with false. cbv iota.
  rewrite (or_else_truthy _ _ Hs).
  unfold getAccountByName. rewrite (select_healthy _ _ H1).
  change (table (set_table (table w) (advance w))) with (table w).
  fold (name_matcher s).
  destruct (find (name_matcher s) (table w)) as [a|]; [|split; reflexivity].
  match goal with |- context [run ?f ?x] =>
    assert (H2 : db_healthy x = true)
      by (rewrite healthy_set_table; now apply healthy_advance);
    rewrite (run_healthy f x H2) end.
  match goal with |- context [run ?f ?x] =>
    assert (H3 : db_healthy x = true)
      by (rewrite healthy_set_table; now apply healthy_advance);
    rewrite (run_healthy f x H3) end.
  split; reflexivity.
Qed.





(* ================================================================== *)
(** * Further properties: resolution and outages *)
(* ================================================================== *)

Ltac healthy_side :=
  repeat first [ rewrite healthy_set_table | apply healthy_advance ]; assumption.

(** Run the next database statement of the goal in a healthy world. *)
Ltac healthy_step :=
  match goal with
  | |- context [initDb ?x] => rewrite (initDb_healthy x) by healthy_side
  | |- context [run ?f ?x] => rewrite (run_healthy f x) by healthy_side
  | |- context [select ?f ?x] => rewrite (select_healthy f x) by healthy_side
  end.

(** X1. Resolution never writes the table and never contacts the upstream;
    it throws exactly when one of its two statements is rejected, with the
    message of that rejection. *)
Theorem resolveClient_throws_only_on_fault env l w :
  table (snd (resolveClient env l w)) = table w
  /\ http_log (snd (resolveClient env l w)) = http_log w
  /\ match db_faults w with
     | Some e :: _ => fst (resolveClient env l w) = Thrown e
     | _ :: Some e :: _ => fst (resolveClient env l w) = Thrown e
     | _ => exists c, fst (resolveClient env l w) = Returned c
     end.
Proof.
  destruct w as [t faults clk log up].
  unfold resolveClient, bind, initDb, run, getAccountById, getDefaultAccount, select,
    statement, next_fault, advance. simpl.
  destruct faults as [|[e|] [|[e'|] r]]; simpl; destruct (truthy l); simpl;
    repeat split; try reflexivity;
    try (destruct (find _ t); simpl; repeat split; eauto).
Qed.

Lemma quiet_ret {A} (a : A) : quiet (ret a).
Proof. intros w. reflexivity. Qed.

Lemma quiet_statement {A} (f : string -> list SubAccount -> A * list SubAccount) :
  quiet (statement f).
Proof.
  intros w. unfold statement. destruct (next_fault w); [reflexivity|].
  destruct (f (clock w) (table w)); reflexivity.
Qed.

Lemma quiet_bind {A B} (c : M A) (k : A -> M B) :
  quiet c -> (forall a, quiet (k a)) -> quiet (bind c k).
Proof.
  intros Hc Hk w. unfold bind. specialize (Hc w).
  destruct (c w) as [[a|e] w']; simpl in *; [|exact Hc].
  now rewrite (Hk a w').
Qed.

Lemma quiet_try_catch {A} (c : M A) h :
  quiet c -> (forall e, quiet (h e)) -> quiet (try_catch c h).
Proof.
  intros Hc Hh w. unfold try_catch. specialize (Hc w).
  destruct (c w) as [[a|e] w']; simpl in *; [exact Hc|].
  now rewrite (Hh e w').
Qed.

Ltac quiet_tac :=
  repeat first
    [ apply quiet_ret
    | apply quiet_statement
    | apply quiet_try_catch
    | apply quiet_bind
    | match goal with
      | |- forall _, _ => intro
      | |- quiet (if ?b then _ else _) => destruct b
      | |- quiet (match ?o with Some _ => _ | None => _ end) => destruct o
      | |- quiet (match ?o with nil => _ | cons _ _ => _ end) => destruct o
      end ].

Lemma registry_tools_are_quiet env stringify c :
  registry_tool c = true -> quiet (handle env stringify c).
Proof.
  destruct c; simpl; try discriminate; intros _;
    unfold ghl_add_sub_account, ghl_list_sub_accounts, ghl_set_default_account,
      ghl_remove_sub_account, ghl_update_sub_account_token, initDb, run, select,
      getAccountById, getAccountByName, error_response, not_found;
    quiet_tac.
Qed.

Lemma other_tools_read_only env stringify c :
  registry_tool c = false -> reads_only (handle env stringify c).
Proof.
  destruct c; simpl; try discriminate; intros _;
    try apply reads_only_bulk;
    unfold ghl_list_contact_custom_fields, ghl_get_contact_custom_field,
      ghl_create_contact_custom_field, ghl_update_contact_custom_field,
      ghl_delete_contact_custom_field, ghl_list_object_custom_fields,
      ghl_create_object_custom_field, ghl_create_custom_field_folder,
      ghl_list_custom_values, ghl_create_custom_value,
      ghl_update_custom_value, ghl_delete_custom_value,
      getLocationCustomFields, getLocationCustomField,
      createLocationCustomField, updateLocationCustomField,
      deleteLocationCustomField, getCustomFieldsByObjectKey,
      createCustomField, createCustomFieldFolder, getCustomValues,
      createCustomValue, updateCustomValue, deleteCustomValue;
    reads_only_tac.
Qed.

(** X2. The two kinds of tools keep apart: a registry tool never sends a
    request to the upstream, and every other tool, listing included,
    leaves the table as it found it, whatever fails. *)
Theorem tools_keep_apart env stringify c w :
  (registry_tool c = true -> http_log (snd (handle env stringify c w)) = http_log w)
  /\ (registry_tool c = false \/ c = ListSubAccounts ->
      table (snd (handle env stringify c w)) = table w).
Proof.
  split.
  - intros H. now apply registry_tools_are_quiet.
  - intros H.
    assert (R : reads_only (handle env stringify c)).
    { destruct H as [H|H]; [now apply other_tools_read_only|].
      subst c. apply reads_only_list_sub_accounts. }
    specialize (R (eq (table w)) w eq_refl).
    destruct (handle env stringify c w) as [[r|e] w']; simpl; now symmetry.
Qed.

Lemma tools_keep_apart_witness :
  http_log (snd (handle env0 compact (RemoveSubAccount "loc_123")
                   (world_of [acme; smith] []))) = []
  /\ table (snd (handle env0 compact (ListCustomValues (Some "loc_456"))
                   (world_of [acme; smith] []))) = [acme; smith].
Proof.
  split.
  - apply (proj1 (tools_keep_apart env0 compact (RemoveSubAccount "loc_123")
                    (world_of [acme; smith] []))). reflexivity.
  - apply (proj2 (tools_keep_apart env0 compact (ListCustomValues (Some "loc_456"))
                    (world_of [acme; smith] []))). now left.
Defined.

(** X3. When the database rejects the first statement of a call, every
    tool but the bulk one answers [Error: ] followed by the database's
    message, with the error flag, and does nothing else. *)
Theorem outage_is_reported env stringify c w e :
  (forall fields l, c <> BulkCreateContactCustomFields fields l) ->
  next_fault w = Some e ->
  handle env stringify c w = (Returned (mkToolResponse ("Error: " ++ e) true), advance w).
Proof.
  intros Hc H.
  assert (Hi : initDb w = (Thrown e, advance w))
    by (unfold initDb, run; now apply statement_faulty).
  assert (Hr : forall l, resolveClient env l w = (Thrown e, advance w))
    by (intros l; unfold resolveClient, bind; now rewrite Hi).
  destruct c; simpl;
    try (exfalso; now apply (Hc fields l));
    unfold ghl_add_sub_account, ghl_list_sub_accounts, ghl_set_default_account,
      ghl_remove_sub_account, ghl_update_sub_account_token,
      ghl_list_contact_custom_fields, ghl_get_contact_custom_field,
      ghl_create_contact_custom_field, ghl_update_contact_custom_field,
      ghl_delete_contact_custom_field, ghl_list_object_custom_fields,
      ghl_create_object_custom_field, ghl_create_custom_field_folder,
      ghl_list_custom_values, ghl_create_custom_value,
      ghl_update_custom_value, ghl_delete_custom_value, try_catch;
    unfold bind at 1; rewrite ?Hi, ?Hr; reflexivity.
Qed.

Lemma outage_is_reported_witness :
  handle env0 compact (SetDefaultAccount None (Some "acme")) d1_down
  = (Returned (mkToolResponse "Error: D1_ERROR: Network connection lost." true),
     advance d1_down).
Proof.
  apply outage_is_reported; [discriminate | reflexivity].
Defined.

(* ================================================================== *)
(** * Further properties: registering, then resolving *)
(* ================================================================== *)

Lemma find_app_absent {A} (f : A -> bool) t u :
  (forall a, In a t -> f a = false) -> find f (t ++ u) = find f u.
Proof.
  induction t as [|b t IH]; simpl; intros H; [reflexivity|].
  rewrite (H b (or_introl eq_refl)). apply IH. intros a Ha. apply H. now right.
Qed.

Lemma delete_by_id_absent l t a : In a (delete_by_id l t) -> String.eqb (id a) l = false.
Proof.
  unfold delete_by_id. intros H. apply filter_In in H. destruct H as [_ H].
  now apply negb_true_iff in H.
Qed.

Lemma clear_defaults_unflagged t a : In a (clear_defaults t) -> flagged a = false.
Proof.
  unfold clear_defaults. intros H. apply in_map_iff in H.
  destruct H as (b & E & _). now subst a.
Qed.

(** A registration in a healthy world: the answer, the table, and a world
    that is healthy still. *)
Lemma add_sub_account_run l n k ty d no w :
  db_healthy w = true ->
  exists w',
    ghl_add_sub_account l n k ty d no w
    = (Returned (text_response
                   ("Sub-account " ++ dq ++ n ++ dq ++ " (" ++ l
                      ++ ") registered successfully!"
                      ++ (if d then " Set as default." else ""))), w')
    /\ db_healthy w' = true /\ clock w' = clock w
    /\ table w'
       = insert_or_replace l n k (accountType_name ty) (if d then 1 else 0)
           (if truthy no then no else None) (clock w)
           (if d then clear_defaults (table w) else table w).
Proof.
  intros H. unfold ghl_add_sub_account, try_catch, bind.
  healthy_step. destruct d.
  - do 2 healthy_step. eexists. repeat split. simpl. healthy_side.
  - unfold ret at 1. healthy_step. eexists. repeat split. simpl. healthy_side.
Qed.

(** X4. Registration then resolution: once an account is registered under
    a non-empty identifier, resolving that identifier gives the credential
    just stored, whatever was registered under it before. *)
Theorem register_then_resolve env l n k ty d no w r w' :
  db_healthy w = true -> l <> "" ->
  ghl_add_sub_account l n k ty d no w = (r, w') ->
  fst (resolveClient env (Some l) w') = Returned (mkGHLClient k l).
Proof.
  intros H Hl E.
  destruct (add_sub_account_run l n k ty d no w H) as (w1 & E1 & H1 & _ & T1).
  rewrite E1 in E. injection E as _ E. subst w'.
  rewrite (resolveClient_healthy env (Some l) w1 H1). cbn [fst].
  assert (T : truthy (Some l) = true) by (apply truthy_true; eauto).
  rewrite T, (or_else_truthy _ _ Hl), T1. unfold insert_or_replace.
  rewrite find_app_absent.
  - simpl. now rewrite String.eqb_refl.
  - intros a Ha. now apply delete_by_id_absent in Ha.
Qed.

Lemma register_then_resolve_witness :
  fst (resolveClient env0 (Some "loc_123")
         (snd (ghl_add_sub_account "loc_123" "Acme Ltd" "pit-new" agency false None
                 (world_of [acme; smith] []))))
  = Returned (mkGHLClient "pit-new" "loc_123").
Proof.
  apply (register_then_resolve env0 "loc_123" "Acme Ltd" "pit-new" agency false None
           (world_of [acme; smith] [])
           (fst (ghl_add_sub_account "loc_123" "Acme Ltd" "pit-new" agency false None
                   (world_of [acme; smith] []))));
    [reflexivity | discriminate | reflexivity].
Defined.

(** X5. Registering with the default flag makes the new account the one
    that requests without an identifier resolve to. *)
Theorem register_default_then_resolve env l n k ty no w r w' :
  db_healthy w = true ->
  ghl_add_sub_account l n k ty true no w = (r, w') ->
  fst (resolveClient env None w') = Returned (mkGHLClient k l).
Proof.
  intros H E.
  destruct (add_sub_account_run l n k ty true no w H) as (w1 & E1 & H1 & _ & T1).
  rewrite E1 in E. injection E as _ E. subst w'.
  rewrite (resolveClient_healthy env None w1 H1). cbn [fst truthy].
  rewrite T1. unfold insert_or_replace. rewrite find_app_absent; [reflexivity|].
  intros a Ha. apply filter_In in Ha. destruct Ha as [Ha _].
  apply (clear_defaults_unflagged _ _ Ha).
Qed.

Lemma register_default_then_resolve_witness :
  fst (resolveClient env0 None
         (snd (ghl_add_sub_account "loc_456" "Dr. Smith Dental" "pit-smith" sub_account
                 true None (world_of [acme; smith] []))))
  = Returned (mkGHLClient "pit-smith" "loc_456").
Proof.
  apply (register_default_then_resolve env0 "loc_456" "Dr. Smith Dental" "pit-smith"
           sub_account None (world_of [acme; smith] [])
           (fst (ghl_add_sub_account "loc_456" "Dr. Smith Dental" "pit-smith"
                   sub_account true None (world_of [acme; smith] []))));
    reflexivity.
Defined.

Lemma no_default_left l t a :
  (defaults t <= 1)%nat -> In a t -> flagged a = true -> id a = l ->
  forall b, In b (delete_by_id l t) -> flagged b = false.
Proof.
  intros Hd Ha Fa Ea b Hb. destruct (flagged b) eqn:Fb; [|reflexivity].
  pose proof (delete_by_id_absent _ _ _ Hb) as Nb.
  apply filter_In in Hb. destruct Hb as [Hb _].
  rewrite (at_most_one_flagged t a b Hd Ha Fa Hb Fb), Ea, String.eqb_refl in Nb.
  discriminate.
Qed.

(** X6. Registering the default account again without the default flag
    takes the flag away: the registry is left without a default, and
    requests without an identifier fall back to the environment. *)
Theorem reregistering_default_drops_flag env l n k ty no w a r w' :
  db_healthy w = true -> (defaults (table w) <= 1)%nat ->
  In a (table w) -> id a = l -> is_default a = 1%Z ->
  ghl_add_sub_account l n k ty false no w = (r, w') ->
  defaults (table w') = 0%nat
  /\ fst (resolveClient env None w')
     = Returned (mkGHLClient (GHL_API_KEY env) (GHL_LOCATION_ID env)).
Proof.
  intros H Hd Ha Ea Da E.
  destruct (add_sub_account_run l n k ty false no w H) as (w1 & E1 & H1 & _ & T1).
  rewrite E1 in E. injection E as _ E. subst w'.
  assert (Fa : flagged a = true) by (unfold flagged; now apply Z.eqb_eq).
  pose proof (no_default_left l (table w) a Hd Ha Fa Ea) as Hno.
  assert (F : find flagged (table w1) = None).
  { rewrite T1. unfold insert_or_replace. rewrite find_app_absent; [reflexivity|].
    exact Hno. }
  split.
  - rewrite T1, defaults_insert_or_replace. simpl. unfold defaults.
    rewrite Nat.add_0_r.
    assert (G : filter flagged (delete_by_id l (table w)) = []).
    { clear -Hno. induction (delete_by_id l (table w)) as [|b t IH]; [reflexivity|].
      simpl. rewrite (Hno b (or_introl eq_refl)). apply IH.
      intros c Hc. apply Hno. now right. }
    now rewrite G.
  - rewrite (resolveClient_healthy env None w1 H1). cbn [fst truthy].
    change (fun a0 : SubAccount => Z.eqb (is_default a0) 1) with flagged.
    now rewrite F.
Qed.

Lemma reregistering_default_drops_flag_witness :
  defaults (table (snd (ghl_add_sub_account "loc_123" "Acme" "pit-acme" sub_account
                          false None (world_of [acme; smith] [])))) = 0%nat
  /\ fst (resolveClient env0 None
            (snd (ghl_add_sub_account "loc_123" "Acme" "pit-acme" sub_account
                    false None (world_of [acme; smith] []))))
     = Returned (mkGHLClient "pit-fallback" "loc_env").
Proof.
  apply (reregistering_default_drops_flag env0 "loc_123" "Acme" "pit-acme" sub_account
           None (world_of [acme; smith] []) acme
           (fst (ghl_add_sub_account "loc_123" "Acme" "pit-acme" sub_account
                   false None (world_of [acme; smith] []))));
    try reflexivity. simpl. tauto.
Defined.

(** The table a registration that reports success leaves, whatever the
    fault schedule. *)
Lemma add_sub_account_success l n k ty d no w r w' :
  ghl_add_sub_account l n k ty d no w = (Returned r, w') -> isError r = false ->
  table w'
  = insert_or_replace l n k (accountType_name ty) (if d then 1 else 0)
      (if truthy no then no else None) (clock w)
      (if d then clear_defaults (table w) else table w).
Proof.
  destruct w as [t faults clk log up].
  unfold ghl_add_sub_account, try_catch, bind, initDb, run, statement, next_fault,
    advance, error_response, ret.
  destruct d; simpl.
  - destruct faults as [|[e|] [|[e1|] [|[e2|] f]]]; simpl; intros E Hr;
      injection E as Er Ew; subst r w'; simpl in *; try discriminate; reflexivity.
  - destruct faults as [|[e|] [|[e1|] f]]; simpl; intros E Hr;
      injection E as Er Ew; subst r w'; simpl in *; try discriminate; reflexivity.
Qed.

Lemma delete_by_id_idem l t : delete_by_id l (delete_by_id l t) = delete_by_id l t.
Proof.
  unfold delete_by_id. induction t as [|a t IH]; simpl; [reflexivity|].
  destruct (negb (String.eqb (id a) l)) eqn:E; simpl; [rewrite E|]; now rewrite ?IH.
Qed.

Lemma delete_by_id_app l t u :
  delete_by_id l (t ++ u) = (delete_by_id l t ++ delete_by_id l u)%list.
Proof. unfold delete_by_id. apply filter_app. Qed.

Lemma delete_by_id_clear l t :
  delete_by_id l (clear_defaults t) = clear_defaults (delete_by_id l t).
Proof.
  unfold delete_by_id, clear_defaults. induction t as [|a t IH]; simpl; [reflexivity|].
  destruct (negb (String.eqb (id a) l)); simpl; now rewrite IH.
Qed.

(** X7. A registration that reports success is an upsert: afterwards
    exactly one row carries the identifier, the last one, holding the given
    name, credential and type, empty notes stored as null, and the current
    time as both timestamps even when the identifier was registered before;
    the rows of other identifiers keep their order and content, except that
    their default flag is cleared when the new row takes it. *)
Theorem registration_is_an_upsert l n k ty d no w r w' :
  ghl_add_sub_account l n k ty d no w = (Returned r, w') -> isError r = false ->
  let row := mkSubAccount l n k (accountType_name ty) (if d then 1 else 0)
               (if truthy no then no else None) (clock w) (clock w) in
  let others := delete_by_id l (table w) in
  table w' = ((if d then clear_defaults others else others) ++ [row])%list
  /\ filter (fun a => String.eqb (id a) l) (table w') = [row].
Proof.
  intros E Hr row others. rewrite (add_sub_account_success _ _ _ _ _ _ _ _ _ E Hr).
  unfold insert_or_replace. fold (delete_by_id l (if d then clear_defaults (table w)
                                                   else table w)).
  assert (T : delete_by_id l (if d then clear_defaults (table w) else table w)
              = if d then clear_defaults others else others).
  { destruct d; [apply delete_by_id_clear | reflexivity]. }
  rewrite T. split; [reflexivity|].
  rewrite filter_app. simpl. rewrite String.eqb_refl.
  assert (G : forall t, filter (fun a => String.eqb (id a) l) (delete_by_id l t) = []).
  { intros t. unfold delete_by_id. induction t as [|a t IH]; simpl; [reflexivity|].
    destruct (String.eqb (id a) l) eqn:Ea; simpl; [exact IH|]. now rewrite Ea. }
  subst others. destruct d; [rewrite <- delete_by_id_clear|]; now rewrite G.
Qed.

Lemma registration_is_an_upsert_witness :
  table (snd (ghl_add_sub_account "loc_123" "Acme Ltd" "pit-new" agency true (Some "")
                (world_of [acme; smith] [])))
    = [smith;
       mkSubAccount "loc_123" "Acme Ltd" "pit-new" "agency" 1 None
         "2024-06-01 12:00:00" "2024-06-01 12:00:00"]
  /\ filter (fun a => String.eqb (id a) "loc_123")
       (table (snd (ghl_add_sub_account "loc_123" "Acme Ltd" "pit-new" agency true
                      (Some "") (world_of [acme; smith] []))))
     = [mkSubAccount "loc_123" "Acme Ltd" "pit-new" "agency" 1 None
          "2024-06-01 12:00:00" "2024-06-01 12:00:00"].
Proof.
  apply (registration_is_an_upsert "loc_123" "Acme Ltd" "pit-new" agency true (Some "")
           (world_of [acme; smith] [])
           (text_response ("Sub-account " ++ dq ++ "Acme Ltd" ++ dq
                             ++ " (loc_123) registered successfully! Set as default."))
           (snd (ghl_add_sub_account "loc_123" "Acme Ltd" "pit-new" agency true (Some "")
                   (world_of [acme; smith] [])))); reflexivity.
Defined.

(** X8. Registering the same account twice in a row leaves the registry
    as registering it once. *)
Theorem registration_is_idempotent l n k ty d no w r1 w1 r2 w2 :
  db_healthy w = true ->
  ghl_add_sub_account l n k ty d no w = (r1, w1) ->
  ghl_add_sub_account l n k ty d no w1 = (r2, w2) ->
  table w2 = table w1.
Proof.
  intros H E1 E2.
  destruct (add_sub_account_run l n k ty d no w H) as (v1 & F1 & H1 & C1 & T1).
  rewrite F1 in E1. injection E1 as _ E1. subst v1.
  destruct (add_sub_account_run l n k ty d no w1 H1) as (v2 & F2 & _ & _ & T2).
  rewrite F2 in E2. injection E2 as _ E2. subst v2.
  rewrite T2, C1, T1. unfold insert_or_replace.
  fold (delete_by_id l (if d then clear_defaults (table w) else table w)).
  set (t := if d then clear_defaults (table w) else table w).
  set (row := mkSubAccount l n k (accountType_name ty) (if d then 1 else 0)
                (if truthy no then no else None) (clock w) (clock w)).
  assert (G : delete_by_id l (delete_by_id l t ++ [row]) = delete_by_id l t).
  { rewrite delete_by_id_app, delete_by_id_idem. unfold delete_by_id at 2. simpl.
    rewrite String.eqb_refl. simpl. apply app_nil_r. }
  destruct d.
  - fold (delete_by_id l (clear_defaults (delete_by_id l t ++ [row]))).
    rewrite delete_by_id_clear, G. subst t.
    rewrite <- delete_by_id_clear.
    assert (I : clear_defaults (clear_defaults (table w)) = clear_defaults (table w)).
    { unfold clear_defaults. rewrite map_map. reflexivity. }
    now rewrite I.
  - fold (delete_by_id l (delete_by_id l t ++ [row])). now rewrite G.
Qed.

Lemma registration_is_idempotent_witness :
  table (snd (ghl_add_sub_account "loc_123" "Acme" "pit-acme" sub_account true None
                (snd (ghl_add_sub_account "loc_123" "Acme" "pit-acme" sub_account true
                        None (world_of [acme; smith] [])))))
  = table (snd (ghl_add_sub_account "loc_123" "Acme" "pit-acme" sub_account true
                  None (world_of [acme; smith] []))).
Proof.
  apply (registration_is_idempotent "loc_123" "Acme" "pit-acme" sub_account true None
           (world_of [acme; smith] [])
           (fst (ghl_add_sub_account "loc_123" "Acme" "pit-acme" sub_account true None
                   (world_of [acme; smith] [])))
           (snd (ghl_add_sub_account "loc_123" "Acme" "pit-acme" sub_account true None
                   (world_of [acme; smith] [])))
           (fst (ghl_add_sub_account "loc_123" "Acme" "pit-acme" sub_account true None
                   (snd (ghl_add_sub_account "loc_123" "Acme" "pit-acme" sub_account
                           true None (world_of [acme; smith] []))))));
    reflexivity.
Defined.

(* ================================================================== *)
(** * Further properties: removal, rotation and the default *)
(* ================================================================== *)

(** X9. A removal that reports success found the identifier registered and
    deletes exactly the rows of that identifier: the rows that stay are
    those of the other identifiers, unchanged and in their order. *)
Theorem removal_deletes_only_that_account l w r w' :
  ghl_remove_sub_account l w = (Returned r, w') -> isError r = false ->
  (exists a, In a (table w) /\ id a = l
             /\ content r = "Sub-account " ++ dq ++ name a ++ dq ++ " (" ++ l
                              ++ ") removed from registry.")
  /\ table w' = delete_by_id l (table w)
  /\ (forall b, In b (table w') <-> In b (table w) /\ id b <> l).
Proof.
  destruct w as [t faults clk log up].
  unfold ghl_remove_sub_account, try_catch, bind, initDb, run, getAccountById, select,
    statement, next_fault, advance, error_response, not_found, ret.
  simpl.
  assert (F : forall b, In b (delete_by_id l t) <-> In b t /\ id b <> l).
  { intros b. unfold delete_by_id. rewrite filter_In, negb_true_iff, String.eqb_neq.
    tauto. }
  destruct faults as [|[e|] [|[e1|] [|[e2|] f]]]; simpl;
    (destruct (find (fun a => String.eqb (id a) l) t) as [a|] eqn:Ef;
     [apply find_some in Ef; destruct Ef as [Ha Ea]; apply String.eqb_eq in Ea|]);
    simpl; intros E Hr; injection E as Er Ew; subst r w'; try discriminate;
    simpl; (split; [eauto | split; [reflexivity | apply F]]).
Qed.

Lemma removal_deletes_only_that_account_witness :
  (exists a, In a [acme; smith] /\ id a = "loc_123"
             /\ "Sub-account " ++ dq ++ "Acme" ++ dq ++ " (loc_123) removed from registry."
                = "Sub-account " ++ dq ++ name a ++ dq ++ " (" ++ "loc_123"
                    ++ ") removed from registry.")
  /\ table (snd (ghl_remove_sub_account "loc_123" (world_of [acme; smith] [])))
     = delete_by_id "loc_123" [acme; smith]
  /\ (forall b,
        In b (table (snd (ghl_remove_sub_account "loc_123" (world_of [acme; smith] []))))
        <-> In b [acme; smith] /\ id b <> "loc_123").
Proof.
  apply (removal_deletes_only_that_account "loc_123" (world_of [acme; smith] [])
           (text_response ("Sub-account " ++ dq ++ "Acme" ++ dq
                             ++ " (loc_123) removed from registry."))
           (snd (ghl_remove_sub_account "loc_123" (world_of [acme; smith] []))));
    reflexivity.
Defined.

(** A removal in a healthy world leaves a healthy world and no row of the
    identifier. *)
Lemma remove_sub_account_run l w :
  db_healthy w = true ->
  db_healthy (snd (ghl_remove_sub_account l w)) = true
  /\ table (snd (ghl_remove_sub_account l w)) = delete_by_id l (table w).
Proof.
  intros H. unfold ghl_remove_sub_account, try_catch, bind, getAccountById.
  do 2 healthy_step. change (table (set_table (table w) (advance w))) with (table w).
  destruct (find (fun a => String.eqb (id a) l) (table w)) eqn:Ef.
  - healthy_step. cbn [snd]. split; [healthy_side | reflexivity].
  - cbn [snd not_found ret]. split; [healthy_side|].
    change (table (set_table (table w) (advance (set_table (table w) (advance w)))))
      with (table w).
    unfold delete_by_id. symmetry.
    apply forallb_filter_id. apply forallb_forall. intros a Ha.
    apply negb_true_iff. destruct (String.eqb (id a) l) eqn:Ea; [|reflexivity].
    apply (find_none _ _ Ef) in Ha. congruence.
Qed.

(** X10. After a removal call for a non-empty identifier, whether it found
    a registration or not, that identifier resolves to itself with the
    fallback credential. *)
Theorem remove_then_resolve env l w :
  db_healthy w = true -> l <> "" ->
  fst (resolveClient env (Some l) (snd (ghl_remove_sub_account l w)))
  = Returned (mkGHLClient (GHL_API_KEY env) l).
Proof.
  intros H Hl. destruct (remove_sub_account_run l w H) as [H1 T1].
  rewrite (resolveClient_healthy env (Some l) _ H1). cbn [fst].
  assert (T : truthy (Some l) = true) by (apply truthy_true; eauto).
  rewrite T, (or_else_truthy _ _ Hl), T1, find_absent; [reflexivity|].
  intros a Ha. now apply delete_by_id_absent in Ha.
Qed.

Lemma remove_then_resolve_witness :
  fst (resolveClient env0 (Some "loc_123")
         (snd (ghl_remove_sub_account "loc_123" (world_of [acme; smith] []))))
  = Returned (mkGHLClient "pit-fallback" "loc_123").
Proof.
  apply remove_then_resolve; [reflexivity | discriminate].
Defined.

Lemma find_set_api_key k l now t :
  find (fun a => String.eqb (id a) l) (set_api_key k l now t)
  = option_map (fun a => mkSubAccount (id a) (name a) k (account_type a) (is_default a)
                           (notes a) (created_at a) now)
      (find (fun a => String.eqb (id a) l) t).
Proof.
  induction t as [|a t IH]; simpl; [reflexivity|].
  destruct (String.eqb (id a) l) eqn:Ea; simpl; rewrite Ea; [reflexivity | exact IH].
Qed.

(** X11. Rotation then resolution: after the token of a registered,
    non-empty identifier is rotated, resolving the identifier gives the new
    credential. *)
Theorem rotate_then_resolve env l k w a :
  db_healthy w = true -> l <> "" -> In a (table w) -> id a = l ->
  fst (resolveClient env (Some l) (snd (ghl_update_sub_account_token l k w)))
  = Returned (mkGHLClient k l).
Proof.
  intros H Hl Ha Ea.
  destruct (find_present (fun b => String.eqb (id b) l) (table w)) as (b & Eb).
  { exists a. split; [exact Ha | now apply String.eqb_eq]. }
  assert (R : db_healthy (snd (ghl_update_sub_account_token l k w)) = true
              /\ table (snd (ghl_update_sub_account_token l k w))
                 = set_api_key k l (clock w) (table w)).
  { unfold ghl_update_sub_account_token, try_catch, bind, getAccountById.
    do 2 healthy_step. change (table (set_table (table w) (advance w))) with (table w).
    rewrite Eb. healthy_step. cbn [snd].
    split; [healthy_side | reflexivity]. }
  destruct R as [H1 T1].
  rewrite (resolveClient_healthy env (Some l) _ H1). cbn [fst].
  assert (T : truthy (Some l) = true) by (apply truthy_true; eauto).
  rewrite T, (or_else_truthy _ _ Hl), T1, find_set_api_key, Eb. simpl.
  apply find_some in Eb. destruct Eb as [_ Eb]. apply String.eqb_eq in Eb.
  now rewrite Eb.
Qed.

Lemma rotate_then_resolve_witness :
  fst (resolveClient env0 (Some "loc_456")
         (snd (ghl_update_sub_account_token "loc_456" "pit-new"
                 (world_of [acme; smith] []))))
  = Returned (mkGHLClient "pit-new" "loc_456").
Proof.
  apply (rotate_then_resolve env0 "loc_456" "pit-new" (world_of [acme; smith] []) smith);
    [reflexivity | discriminate | simpl; tauto | reflexivity].
Defined.

Lemma find_mark_default l now t a :
  primary_key t -> In a t -> id a = l ->
  find flagged (mark_default l now (clear_defaults t))
  = Some (mkSubAccount (id a) (name a) (api_key a) (account_type a) 1 (notes a)
            (created_at a) now).
Proof.
  unfold primary_key. induction t as [|b t IH]; simpl; intros Hk Ha Ea; [destruct Ha|].
  inversion Hk as [|x xs Hn Hd]; subst.
  destruct (String.eqb_spec (id b) (id a)) as [E|N].
  - destruct Ha as [Ha|Ha]; [subst b; reflexivity|].
    exfalso. apply Hn. rewrite E. now apply in_map.
  - destruct Ha as [Ha|Ha]; [subst b; congruence|].
    unfold flagged at 1. simpl. now apply IH.
Qed.

(** X12. Set-default by a registered, non-empty identifier, whatever the
    name argument: the answer names that account, and from then on
    requests without an identifier resolve to its credential. *)
Theorem set_default_by_id_then_resolve env l n w a :
  db_healthy w = true -> primary_key (table w) -> l <> "" ->
  In a (table w) -> id a = l ->
  fst (ghl_set_default_account (Some l) n w)
  = Returned (text_response ("Default account set to " ++ dq ++ name a ++ dq
                               ++ " (" ++ l ++ ")"))
  /\ fst (resolveClient env None (snd (ghl_set_default_account (Some l) n w)))
     = Returned (mkGHLClient (api_key a) l).
Proof.
  intros H Hk Hl Ha Ea.
  assert (T : truthy (Some l) = true) by (apply truthy_true; eauto).
  assert (Ef : find (fun b => String.eqb (id b) l) (table w) = Some a)
    by (rewrite <- Ea; now apply find_by_id).
  assert (R : ghl_set_default_account (Some l) n w
              = (Returned (text_response ("Default account set to " ++ dq ++ name a ++ dq
                                            ++ " (" ++ l ++ ")")),
                 snd (ghl_set_default_account (Some l) n w))
              /\ db_healthy (snd (ghl_set_default_account (Some l) n w)) = true
              /\ table (snd (ghl_set_default_account (Some l) n w))
                 = mark_default l (clock w) (clear_defaults (table w))).
  { unfold ghl_set_default_account, try_catch, bind. healthy_step.
    rewrite T, (or_else_truthy _ _ Hl). unfold getAccountById. healthy_step.
    change (table (set_table (table w) (advance w))) with (table w).
    rewrite Ef. do 2 healthy_step. cbn [snd ret]. rewrite Ea.
    split; [reflexivity|]. split; [healthy_side | reflexivity]. }
  destruct R as (E & H1 & T1). split; [now rewrite E|].
  rewrite (resolveClient_healthy env None _ H1). cbn [fst truthy].
  change (fun a0 : SubAccount => Z.eqb (is_default a0) 1) with flagged.
  rewrite T1, (find_mark_default l (clock w) (table w) a Hk Ha Ea). simpl.
  now rewrite Ea.
Qed.

Lemma set_default_by_id_then_resolve_witness :
  fst (ghl_set_default_account (Some "loc_456") (Some "acme") (world_of [acme; smith] []))
    = Returned (text_response ("Default account set to " ++ dq ++ "Dr. Smith Dental"
                                 ++ dq ++ " (" ++ "loc_456" ++ ")"))
  /\ fst (resolveClient env0 None
            (snd (ghl_set_default_account (Some "loc_456") (Some "acme")
                    (world_of [acme; smith] []))))
     = Returned (mkGHLClient "pit-smith" "loc_456").
Proof.
  apply (set_default_by_id_then_resolve env0 "loc_456" (Some "acme")
           (world_of [acme; smith] []) smith);
    [reflexivity | | discriminate | simpl; tauto | reflexivity].
  repeat constructor; simpl; intuition discriminate.
Defined.

(** X13. Set-default finds nothing, and changes nothing, when the
    identifier given is not registered, even if the name given would
    match a registration, and when neither an identifier nor a name is
    given. *)
Theorem set_default_without_target l n w :
  (truthy l = true /\ (forall a, In a (table w) -> id a <> or_else l ""))
  \/ (truthy l = false /\ truthy n = false) ->
  table (snd (ghl_set_default_account l n w)) = table w
  /\ (exists r, fst (ghl_set_default_account l n w) = Returned r /\ isError r = true)
  /\ (db_healthy w = true ->
      fst (ghl_set_default_account l n w) = Returned account_not_found).
Proof.
  intros Hc. destruct w as [t faults clk log up]. simpl in Hc.
  unfold ghl_set_default_account, try_catch, bind, initDb, run, getAccountById,
    getAccountByName, select, statement, next_fault, advance, error_response,
    not_found, ret, db_healthy, account_not_found.
  destruct Hc as [[Tl Hno]|[Tl Tn]]; rewrite Tl; [|rewrite Tn].
  - assert (F : find (fun a => String.eqb (id a) (or_else l "")) t = None).
    { apply find_absent. intros a Ha. apply String.eqb_neq. now apply Hno. }
    destruct faults as [|[e|] [|[e1|] f]]; simpl; rewrite ?F; simpl;
      (split; [reflexivity|]); (split; [eexists; split; reflexivity|]);
      intros Hh; try discriminate; reflexivity.
  - destruct faults as [|[e|] f]; simpl;
      (split; [reflexivity|]); (split; [eexists; split; reflexivity|]);
      intros Hh; try discriminate; reflexivity.
Qed.

Lemma set_default_without_target_witness :
  table (snd (ghl_set_default_account (Some "loc_789") (Some "acme")
                (world_of [acme; smith] []))) = [acme; smith]
  /\ (exists r, fst (ghl_set_default_account (Some "loc_789") (Some "acme")
                       (world_of [acme; smith] [])) = Returned r /\ isError r = true)
  /\ (db_healthy (world_of [acme; smith] []) = true ->
      fst (ghl_set_default_account (Some "loc_789") (Some "acme")
             (world_of [acme; smith] [])) = Returned account_not_found).
Proof.
  apply (set_default_without_target (Some "loc_789") (Some "acme")
           (world_of [acme; smith] [])).
  left. split; [reflexivity|].
  intros a [E|[E|[]]]; subst a; discriminate.
Defined.

(** X14. What an account tool leaves behind when it answers with an error:
    removal and token rotation leave the table untouched; registration and
    set-default leave it untouched or with every default flag cleared, the
    rows being otherwise as they were. *)
Theorem failed_account_tool_effects w :
  (forall l r w', ghl_remove_sub_account l w = (Returned r, w') -> isError r = true ->
     table w' = table w)
  /\ (forall l k r w', ghl_update_sub_account_token l k w = (Returned r, w') ->
        isError r = true -> table w' = table w)
  /\ (forall l n k ty d no r w',
        ghl_add_sub_account l n k ty d no w = (Returned r, w') -> isError r = true ->
        table w' = table w \/ (d = true /\ table w' = clear_defaults (table w)))
  /\ (forall l n r w', ghl_set_default_account l n w = (Returned r, w') ->
        isError r = true ->
        table w' = table w \/ table w' = clear_defaults (table w)).
Proof.
  destruct w as [t faults clk log up]. repeat split.
  - intros l r w'.
    unfold ghl_remove_sub_account, try_catch, bind, initDb, run, getAccountById, select,
      statement, next_fault, advance, error_response, not_found, ret.
    destruct faults as [|[e|] [|[e1|] [|[e2|] f]]]; simpl;
      destruct (find (fun a => String.eqb (id a) l) t); simpl; intros E Hr;
      injection E as Er Ew; subst r w'; try discriminate; reflexivity.
  - intros l k r w'.
    unfold ghl_update_sub_account_token, try_catch, bind, initDb, run, getAccountById,
      select, statement, next_fault, advance, error_response, not_found, ret.
    destruct faults as [|[e|] [|[e1|] [|[e2|] f]]]; simpl;
      destruct (find (fun a => String.eqb (id a) l) t); simpl; intros E Hr;
      injection E as Er Ew; subst r w'; try discriminate; reflexivity.
  - intros l n k ty d no r w'.
    unfold ghl_add_sub_account, try_catch, bind, initDb, run, statement, next_fault,
      advance, error_response, ret.
    destruct d; simpl.
    + destruct faults as [|[e|] [|[e1|] [|[e2|] f]]]; simpl; intros E Hr;
        injection E as Er Ew; subst r w'; try discriminate; simpl; auto.
    + destruct faults as [|[e|] [|[e1|] f]]; simpl; intros E Hr;
        injection E as Er Ew; subst r w'; try discriminate; simpl; auto.
  - intros l n r w'.
    unfold ghl_set_default_account, try_catch, bind, initDb, run, getAccountById,
      getAccountByName, select, statement, next_fault, advance, error_response,
      not_found, ret.
    destruct (truthy l); [|destruct (truthy n)];
      destruct faults as [|[e|] [|[e1|] [|[e2|] [|[e3|] f]]]]; simpl;
      try destruct (find _ t); simpl; intros E Hr;
      injection E as Er Ew; subst r w'; try discriminate; simpl; auto.
Qed.

Lemma failed_account_tool_effects_witness :
  table (snd (ghl_remove_sub_account "loc_123" insert_fails)) = table insert_fails
  /\ table (snd (ghl_update_sub_account_token "loc_123" "pit-new" insert_fails))
     = table insert_fails
  /\ (table (snd (ghl_add_sub_account "loc_456" "Dr. Smith Dental" "pit-smith"
                    sub_account true None insert_fails)) = table insert_fails
      \/ (true = true
          /\ table (snd (ghl_add_sub_account "loc_456" "Dr. Smith Dental" "pit-smith"
                           sub_account true None insert_fails))
             = clear_defaults (table insert_fails)))
  /\ (table (snd (ghl_set_default_account (Some "loc_456") None insert_fails))
        = table insert_fails
      \/ table (snd (ghl_set_default_account (Some "loc_456") None insert_fails))
         = clear_defaults (table insert_fails)).
Proof.
  split; [|split; [|split]].
  - apply (proj1 (failed_account_tool_effects insert_fails) "loc_123"
             (mkToolResponse "Error: D1_ERROR: disk full" true)); reflexivity.
  - apply (proj1 (proj2 (failed_account_tool_effects insert_fails)) "loc_123" "pit-new"
             (mkToolResponse "Error: D1_ERROR: disk full" true)); reflexivity.
  - apply (proj1 (proj2 (proj2 (failed_account_tool_effects insert_fails)))
             "loc_456" "Dr. Smith Dental" "pit-smith" sub_account true None
             (mkToolResponse "Error: D1_ERROR: disk full" true)); reflexivity.
  - apply (proj2 (proj2 (proj2 (failed_account_tool_effects insert_fails)))
             (Some "loc_456") None
             (mkToolResponse "Error: D1_ERROR: disk full" true)); reflexivity.
Defined.

(** The registration whose insert is rejected after the flags were cleared
    leaves the registry without a default. *)
Example rejected_insert_loses_default :
  map (fun a => (id a, is_default a))
    (table (snd (ghl_add_sub_account "loc_456" "Dr. Smith Dental" "pit-smith"
                   sub_account true None insert_fails)))
  = [("loc_123", 0%Z); ("loc_456", 0%Z)].
Proof. reflexivity. Qed.

(* ================================================================== *)
(** * Further properties: the facade and the tools built on it *)
(* ================================================================== *)

Lemma perform_settles c f w : exists q, one_exchange c f w q.
Proof.
  unfold one_exchange.
  destruct f; simpl perform;
    unfold getCustomFieldsByObjectKey, getCustomFieldById, createCustomField,
      updateCustomField, deleteCustomField, createCustomFieldFolder,
      updateCustomFieldFolder, deleteCustomFieldFolder, getLocationCustomFields,
      getLocationCustomField, createLocationCustomField, updateLocationCustomField,
      deleteLocationCustomField, getCustomValues, getCustomValue, createCustomValue,
      updateCustomValue, deleteCustomValue;
    cbv zeta; rewrite request_settles;
    (eexists; split; [reflexivity|]; split; [reflexivity|]; split;
     [eexists; reflexivity|]; simpl; try reflexivity; eexists; reflexivity).
Qed.

(** X15. Every method of the facade makes exactly one exchange with the
    upstream, whether it succeeds or not: one request to a path under the
    fixed base URL, with the bearer credential of the client, JSON content
    headers and the version header; the creates and updates carry a JSON
    object as body, the reads and deletes no body; the method throws when
    the exchange fails and returns the parsed body otherwise. *)
Theorem facade_makes_one_exchange c f w : exists q, one_exchange c f w q.
Proof. apply perform_settles. Qed.

(** X16. The credential of the client goes into the headers and nowhere
    else: two clients for the same location send, for the same call, the
    same method, URL, query and body. *)
Theorem credential_stays_in_headers k1 k2 loc f w :
  map sans_headers (http_log (snd (perform (mkGHLClient k1 loc) f w)))
  = map sans_headers (http_log (snd (perform (mkGHLClient k2 loc) f w))).
Proof.
  destruct f; simpl perform;
    unfold getCustomFieldsByObjectKey, getCustomFieldById, createCustomField,
      updateCustomField, deleteCustomField, createCustomFieldFolder,
      updateCustomFieldFolder, deleteCustomFieldFolder, getLocationCustomFields,
      getLocationCustomField, createLocationCustomField, updateLocationCustomField,
      deleteLocationCustomField, getCustomValues, getCustomValue, createCustomValue,
      updateCustomValue, deleteCustomValue;
    cbv zeta; rewrite !request_settles; cbn [snd http_log set_http_log];
    rewrite !map_app; reflexivity.
Qed.

Lemma guarded_call env l (F : GHLClient -> M Json) (K : Json -> string) w client w1 :
  resolveClient env l w = (Returned client, w1) ->
  try_catch
    (bind (resolveClient env l)
       (fun client => bind (F client) (fun result => ret (text_response (K result)))))
    error_response w
  = (Returned (answer K (fst (F client w1))), snd (F client w1)).
Proof.
  intros E. unfold try_catch, bind. rewrite E.
  destruct (F client w1) as [[j|e] w2]; reflexivity.
Qed.

Lemma ends_with_here (s : string) : exists pre, s = pre ++ s.
Proof. now exists "". Qed.

Lemma ends_with_more (a rest s : string) :
  (exists pre, rest = pre ++ s) -> exists pre, a ++ rest = pre ++ s.
Proof. intros (pre & E). exists (a ++ pre). now rewrite E, append_assoc. Qed.

(** Each single-call tool is tenant resolution followed by one facade
    call. *)
Lemma single_call_tool_shape env stringify c w client w1 :
  single_call_tool c = true ->
  resolveClient env (tenant_of c) w = (Returned client, w1) ->
  exists f K,
    handle env stringify c w
    = (Returned (answer K (fst (perform client f w1))), snd (perform client f w1))
    /\ forall j, exists pre, K j = pre ++ stringify j.
Proof.
  intros Hs E.
  destruct c; try discriminate; simpl in E; simpl handle;
    unfold ghl_list_contact_custom_fields, ghl_get_contact_custom_field,
      ghl_create_contact_custom_field, ghl_update_contact_custom_field,
      ghl_delete_contact_custom_field, ghl_list_object_custom_fields,
      ghl_create_object_custom_field, ghl_create_custom_field_folder,
      ghl_list_custom_values, ghl_create_custom_value,
      ghl_update_custom_value, ghl_delete_custom_value;
    erewrite guarded_call by exact E.
  - exists (GetLocationCustomFields None), stringify.
    split; [reflexivity | intros j; apply ends_with_here].
  - exists (GetLocationCustomField fieldId None), stringify.
    split; [reflexivity | intros j; apply ends_with_here].
  - exists (CreateLocationCustomField (CreateContactField.data p) None).
    eexists (fun j => _). split; [reflexivity|].
    intros j. cbv beta. repeat apply ends_with_more. apply ends_with_here.
  - exists (UpdateLocationCustomField (UpdateContactField.fieldId p)
              (UpdateContactField.data p) None).
    eexists (fun j => _). split; [reflexivity|].
    intros j. cbv beta. repeat apply ends_with_more. apply ends_with_here.
  - exists (DeleteLocationCustomField fieldId None).
    eexists (fun j => _). split; [reflexivity|].
    intros j. cbv beta. repeat apply ends_with_more. apply ends_with_here.
  - exists (GetCustomFieldsByObjectKey objectKey None), stringify.
    split; [reflexivity | intros j; apply ends_with_here].
  - exists (CreateCustomField (CreateObjectField.data p)).
    eexists (fun j => _). split; [reflexivity|].
    intros j. cbv beta. repeat apply ends_with_more. apply ends_with_here.
  - exists (CreateCustomFieldFolderCall
              [("objectKey", Some (JStr objectKey)); ("name", Some (JStr n))]).
    eexists (fun j => _). split; [reflexivity|].
    intros j. cbv beta. repeat apply ends_with_more. apply ends_with_here.
  - exists (GetCustomValues None), stringify.
    split; [reflexivity | intros j; apply ends_with_here].
  - exists (CreateCustomValueCall [("name", Some (JStr n)); ("value", Some (JStr v))] None).
    eexists (fun j => _). split; [reflexivity|].
    intros j. cbv beta. repeat apply ends_with_more. apply ends_with_here.
  - exists (UpdateCustomValueCall valueId [("name", jstr n); ("value", jstr v)] None).
    eexists (fun j => _). split; [reflexivity|].
    intros j. cbv beta. repeat apply ends_with_more. apply ends_with_here.
  - exists (DeleteCustomValueCall valueId None).
    eexists (fun j => _). split; [reflexivity|].
    intros j. cbv beta. repeat apply ends_with_more. apply ends_with_here.
Qed.

(** X17. With a working registry, each of the twelve tools that make a
    single facade call resolves its tenant and sends exactly one request,
    authenticated with the credential resolution gave; it answers with
    [Error: ] and the message, flagged, when the exchange fails, and with a
    text that ends in the JSON of the result, unflagged, when it
    succeeds. *)
Theorem single_call_tools_make_one_exchange env stringify c w :
  single_call_tool c = true -> db_healthy w = true ->
  exists client w1 q,
    resolveClient env (tenant_of c) w = (Returned client, w1)
    /\ snd (handle env stringify c w) = set_http_log (http_log w ++ [q]) w1
    /\ headers q = versioned_headers client
    /\ match settle (upstream w (http_log w) q) with
       | inl e =>
           fst (handle env stringify c w) = Returned (mkToolResponse ("Error: " ++ e) true)
       | inr j =>
           exists pre,
             fst (handle env stringify c w) = Returned (text_response (pre ++ stringify j))
       end.
Proof.
  intros Hs H. pose proof (resolveClient_healthy env (tenant_of c) w H) as E.
  destruct (single_call_tool_shape env stringify c w _ _ Hs E) as (f & K & Eh & HK).
  destruct (perform_settles
              (if truthy (tenant_of c)
               then match find (fun a => String.eqb (id a) (or_else (tenant_of c) ""))
                            (table w) with
                    | Some a => mkGHLClient (api_key a) (id a)
                    | None => mkGHLClient (GHL_API_KEY env) (or_else (tenant_of c) "")
                    end
               else match find (fun a => Z.eqb (is_default a) 1) (table w) with
                    | Some a => mkGHLClient (api_key a) (id a)
                    | None => mkGHLClient (GHL_API_KEY env) (GHL_LOCATION_ID env)
                    end)
              f (advance (advance w))) as (q & Ep & Hh & _).
  eexists _, _, q. split; [exact E|].
  rewrite Eh, Ep. cbn [fst snd http_log upstream advance set_db_faults].
  split; [reflexivity|]. split; [exact Hh|].
  destruct (settle (upstream w (http_log w) q)) as [e|j]; simpl; [reflexivity|].
  destruct (HK j) as (pre & EK). exists pre. now rewrite EK.
Qed.

Lemma single_call_tools_make_one_exchange_witness :
  exists client w1 q,
    resolveClient env0 (tenant_of (ListCustomValues (Some "loc_456")))
      (busy_world unprocessable) = (Returned client, w1)
    /\ snd (handle env0 compact (ListCustomValues (Some "loc_456"))
              (busy_world unprocessable))
       = set_http_log (http_log (busy_world unprocessable) ++ [q]) w1
    /\ headers q = versioned_headers client
    /\ match settle (upstream (busy_world unprocessable)
                       (http_log (busy_world unprocessable)) q) with
       | inl e =>
           fst (handle env0 compact (ListCustomValues (Some "loc_456"))
                  (busy_world unprocessable))
           = Returned (mkToolResponse ("Error: " ++ e) true)
       | inr j =>
           exists pre,
             fst (handle env0 compact (ListCustomValues (Some "loc_456"))
                    (busy_world unprocessable))
             = Returned (text_response (pre ++ compact j))
       end.
Proof.
  apply single_call_tools_make_one_exchange; reflexivity.
Defined.

(* ================================================================== *)
(** * Further properties: version 1.0.0 and backward compatibility *)
(* ================================================================== *)

Lemma or_else_resolved l d : or_else l d = if truthy l then or_else l "" else d.
Proof. destruct l as [[|c s]|]; reflexivity. Qed.

Lemma resolveClient_unregistered env l w :
  db_healthy w = true -> unregistered l (table w) ->
  resolveClient env l w
  = (Returned (mkGHLClient (GHL_API_KEY env) (or_else l (GHL_LOCATION_ID env))),
     advance (advance w)).
Proof.
  intros H Hu.
  rewrite (resolveClient_healthy env l w H), (or_else_resolved l (GHL_LOCATION_ID env)).
  unfold unregistered in Hu. destruct (truthy l).
  - rewrite find_absent; [reflexivity|]. intros a Ha. apply String.eqb_neq. auto.
  - rewrite find_absent; [reflexivity|]. intros a Ha. apply Z.eqb_neq. auto.
Qed.

Lemma or_else_idem l d : or_else None (or_else l d) = or_else l d.
Proof. reflexivity. Qed.

Lemma located_body_v1 key loc l data :
  forallb (fun kv => negb (String.eqb (fst kv) "locationId")) data = true ->
  located_body (mkGHLClient key loc) (data ++ [("locationId", jstr l)])%list
  = located_body (mkGHLClient key (or_else l loc)) data.
Proof.
  intros Hn. unfold located_body, locationId_of.
  assert (G : obj_get "locationId" (data ++ [("locationId", jstr l)])%list = jstr l
              /\ obj_get "locationId" data = None
              /\ forall v, obj_set "locationId" v (data ++ [("locationId", jstr l)])%list
                           = obj_set "locationId" v data).
  { induction data as [|[k u] d IH]; simpl in *; [repeat split|].
    apply andb_true_iff in Hn. destruct Hn as [Hk Hn]. apply negb_true_iff in Hk.
    rewrite Hk. destruct (IH Hn) as (G1 & G2 & G3).
    repeat split; auto. intros v. now rewrite G3. }
  destruct G as (G1 & G2 & G3). rewrite G1, G2, G3. simpl.
  destruct l as [[|c s]|]; reflexivity.
Qed.

Lemma unguarded_call (F : M Json) (K : Json -> string) w :
  try_catch (bind F (fun result => ret (text_response (K result)))) error_response w
  = (Returned (answer K (fst (F w))), snd (F w)).
Proof.
  unfold try_catch, bind. destruct (F w) as [[j|e] w2]; reflexivity.
Qed.

Lemma item_request_v1 key loc l f :
  item_request (mkGHLClient key (or_else l loc)) None f
  = item_request (mkGHLClient key loc) l f.
Proof. reflexivity. Qed.

Ltac unfold_tools :=
  unfold ghl_list_contact_custom_fields, ghl_get_contact_custom_field,
    ghl_create_contact_custom_field, ghl_update_contact_custom_field,
    ghl_delete_contact_custom_field, ghl_list_object_custom_fields,
    ghl_create_object_custom_field, ghl_create_custom_field_folder,
    ghl_list_custom_values, ghl_create_custom_value,
    ghl_update_custom_value, ghl_delete_custom_value,
    V1.ghl_list_contact_custom_fields, V1.ghl_get_contact_custom_field,
    V1.ghl_create_contact_custom_field, V1.ghl_update_contact_custom_field,
    V1.ghl_delete_contact_custom_field, V1.ghl_list_object_custom_fields,
    V1.ghl_create_object_custom_field, V1.ghl_create_custom_field_folder,
    V1.ghl_list_custom_values, V1.ghl_create_custom_value,
    V1.ghl_update_custom_value, V1.ghl_delete_custom_value, V1.createClient.

Ltac unfold_facade :=
  unfold getCustomFieldsByObjectKey, getCustomFieldById, createCustomField,
    updateCustomField, deleteCustomField, createCustomFieldFolder,
    updateCustomFieldFolder, deleteCustomFieldFolder, getLocationCustomFields,
    getLocationCustomField, createLocationCustomField, updateLocationCustomField,
    deleteLocationCustomField, getCustomValues, getCustomValue, createCustomValue,
    updateCustomValue, deleteCustomValue.

(** X18. Backward compatibility: when the registry offers nothing for a
    call (its non-empty identifier is not registered, or it has none and no
    row is flagged default), a tool of version 2.0.0 sends the very
    requests its version 1.0.0 counterpart sends and answers with the same
    error flag, and with the same text where the two versions word their
    answers alike. *)
Theorem unregistered_tenants_as_in_v1 env stringify c h w :
  V1.handle env stringify c = Some h ->
  db_healthy w = true -> unregistered (tenant_of c) (table w) ->
  http_log (snd (handle env stringify c w)) = http_log (snd (h w))
  /\ exists r2 r1,
       fst (handle env stringify c w) = Returned r2 /\ fst (h w) = Returned r1
       /\ isError r2 = isError r1
       /\ (same_wording c = true -> r2 = r1).
Proof.
  intros Hh H Hu.
  pose proof (resolveClient_unregistered env (tenant_of c) w H Hu) as E.
  destruct c; try discriminate; simpl in Hh; injection Hh as Hh; subst h;
    simpl in E; simpl handle;
    try (unfold_tools; cbv zeta; erewrite guarded_call by exact E;
         rewrite unguarded_call; unfold_facade; cbv zeta;
         try match goal with
             | |- context [located_body _ [?a; ?b; ("locationId", ?x)]] =>
                 change [a; b; ("locationId", x)] with ([a; b] ++ [("locationId", x)])%list
             end;
         rewrite ?(located_body_v1 (GHL_API_KEY env) (GHL_LOCATION_ID env)) by reflexivity;
         rewrite !request_settles;
         cbn [fst snd http_log upstream advance set_db_faults set_http_log locationId
                apiKey];
         match goal with
         | |- (_ ++ [?q2])%list = (_ ++ [?q1])%list /\ _ => change q1 with q2
         end;
         (split; [reflexivity|]);
         match goal with
         | |- context [settle ?x] => destruct (settle x) as [e|j]
         end;
         eexists _, _; repeat split; discriminate).
  unfold ghl_bulk_create_contact_custom_fields, V1.ghl_bulk_create_contact_custom_fields,
    V1.createClient.
  unfold bind. rewrite E, !create_each_settles.
  cbn [fst snd http_log upstream advance set_db_faults set_http_log ret].
  split; [reflexivity|]. eexists _, _.
  split; [reflexivity|]. split; [reflexivity|]. split; [reflexivity|].
  simpl. discriminate.
Qed.

Lemma unregistered_tenants_as_in_v1_witness :
  http_log (snd (handle env0 compact (ListCustomValues (Some "loc_789"))
                   (busy_world created)))
    = http_log (snd (V1.ghl_list_custom_values env0 compact (Some "loc_789")
                       (busy_world created)))
  /\ exists r2 r1,
       fst (handle env0 compact (ListCustomValues (Some "loc_789")) (busy_world created))
         = Returned r2
       /\ fst (V1.ghl_list_custom_values env0 compact (Some "loc_789")
                 (busy_world created)) = Returned r1
       /\ isError r2 = isError r1
       /\ (same_wording (ListCustomValues (Some "loc_789")) = true -> r2 = r1).
Proof.
  apply (unregistered_tenants_as_in_v1 env0 compact (ListCustomValues (Some "loc_789")));
    [reflexivity | reflexivity |].
  intros a [E|[E|[]]]; subst a; discriminate.
Defined.

(** X19. No tool of version 1.0.0 consults the registry: each of the
    thirteen, the bulk one included, answers with a response whatever the
    state of the database, and leaves the table and the fault schedule as
    they were. *)
Theorem v1_tools_always_answer env stringify c h w :
  V1.handle env stringify c = Some h ->
  (exists r, fst (h w) = Returned r)
  /\ table (snd (h w)) = table w
  /\ db_faults (snd (h w)) = db_faults w.
Proof.
  intros Hh.
  destruct c; try discriminate; simpl in Hh; injection Hh as Hh; subst h;
    try (unfold_tools; cbv zeta; rewrite unguarded_call; unfold_facade; cbv zeta;
         rewrite request_settles; cbn [fst snd]; repeat split; eauto).
  unfold V1.ghl_bulk_create_contact_custom_fields, bind.
  rewrite create_each_settles. cbn [fst snd ret]. repeat split; eauto.
Qed.

Lemma v1_tools_always_answer_witness :
  (exists r, fst (V1.ghl_bulk_create_contact_custom_fields env0 compact three_fields None
                    d1_down) = Returned r)
  /\ table (snd (V1.ghl_bulk_create_contact_custom_fields env0 compact three_fields None
                   d1_down)) = table d1_down
  /\ db_faults (snd (V1.ghl_bulk_create_contact_custom_fields env0 compact three_fields
                       None d1_down)) = db_faults d1_down.
Proof.
  apply (v1_tools_always_answer env0 compact
           (BulkCreateContactCustomFields three_fields None)).
  reflexivity.
Defined.

(* ================================================================== *)
(** * Further properties: listing and lookup by name *)
(* ================================================================== *)

Lemma insert_by_name_perm a t : Permutation (insert_by_name a t) (a :: t).
Proof.
  induction t as [|b t IH]; simpl; [apply Permutation_refl|].
  destruct (String.leb (name a) (name b)); [apply Permutation_refl|].
  eapply perm_trans; [apply perm_skip, IH | apply perm_swap].
Qed.

Lemma order_by_name_perm t : Permutation (order_by_name t) t.
Proof.
  induction t as [|a t IH]; simpl; [constructor|].
  eapply perm_trans; [apply insert_by_name_perm | now apply perm_skip].
Qed.

Lemma insert_by_name_sorted a t : Sorted by_name t -> Sorted by_name (insert_by_name a t).
Proof.
  induction t as [|b t IH]; simpl; intros Hs.
  - repeat constructor.
  - destruct (String.leb (name a) (name b)) eqn:E.
    + constructor; [exact Hs | constructor; exact E].
    + inversion Hs as [|x xs Hs' Hd]; subst. constructor; [now apply IH|].
      assert (Hba : by_name b a).
      { destruct (String.leb_total (name a) (name b)) as [H|H]; [congruence | exact H]. }
      destruct t as [|c t]; simpl; [now constructor|].
      destruct (String.leb (name a) (name c)); constructor; [exact Hba|].
      now inversion Hd.
Qed.

Lemma order_by_name_sorted t : Sorted by_name (order_by_name t).
Proof.
  induction t as [|a t IH]; simpl; [constructor | now apply insert_by_name_sorted].
Qed.

(** X20. With a working database the list tool shows every registration
    exactly once, in the byte order of the names, under a header that gives
    their number; an empty registry gives the invitation to register. *)
Theorem listing_is_sorted_and_complete stringify w :
  db_healthy w = true ->
  exists rows,
    Permutation rows (table w) /\ Sorted by_name rows
    /\ fst (ghl_list_sub_accounts stringify w)
       = Returned
           (text_response
              (match table w with
               | [] => "No sub-accounts registered yet. Use ghl_add_sub_account to add one."
               | _ :: _ =>
                   string_of_nat (length (table w)) ++ " sub-account(s) registered:"
                     ++ nl ++ nl ++ stringify (JArr (map listed rows))
               end)).
Proof.
  intros H. exists (order_by_name (table w)).
  split; [apply order_by_name_perm|]. split; [apply order_by_name_sorted|].
  unfold ghl_list_sub_accounts, try_catch, bind. do 2 healthy_step.
  change (table (set_table (table w) (advance w))) with (table w).
  pose proof (order_by_name_perm (table w)) as P.
  destruct (order_by_name (table w)) as [|a r] eqn:Eo.
  - apply Permutation_nil in P. now rewrite P.
  - destruct (table w) as [|b t] eqn:Et.
    + apply Permutation_sym, Permutation_nil in P. discriminate.
    + cbn [fst ret]. rewrite length_map, (Permutation_length P). reflexivity.
Qed.

Lemma listing_is_sorted_and_complete_witness :
  exists rows,
    Permutation rows [smith; acme] /\ Sorted by_name rows
    /\ fst (ghl_list_sub_accounts compact (world_of [smith; acme] []))
       = Returned
           (text_response
              (string_of_nat 2 ++ " sub-account(s) registered:"
                 ++ nl ++ nl ++ compact (JArr (map listed rows)))).
Proof.
  apply (listing_is_sorted_and_complete compact (world_of [smith; acme] [])).
  reflexivity.
Defined.




Lemma like_percents_empty p : all_percent p = true -> like p "" = true.
Proof.
  induction p as [|c p IH]; simpl; [reflexivity|]. intros H.
  apply andb_true_iff in H. destruct H as [Hc Hp]. rewrite Hc.
  now rewrite (IH Hp).
Qed.

Lemma like_percents p s : all_percent p = true -> p <> "" -> like p s = true.
Proof.
  destruct p as [|c p]; [congruence|]. simpl all_percent. intros H _.
  apply andb_true_iff in H. destruct H as [Hc Hp]. apply Ascii.eqb_eq in Hc. subst c.
  apply like_percent. exists s, "". split; [now rewrite append_nil_r|].
  now apply like_percents_empty.
Qed.

Lemma all_percent_pattern n :
  all_percent n = true -> all_percent (LOWER ("%" ++ n ++ "%")) = true.
Proof.
  intros H. simpl. induction n as [|c n IH]; simpl in *; [reflexivity|].
  apply andb_true_iff in H. destruct H as [Hc Hn]. apply Ascii.eqb_eq in Hc. subst c.
  simpl. now apply IH.
Qed.

(** X22. The name is put into the LIKE pattern as it is: a name made of
    percent signs matches every display name, so set-default by such a
    name makes the first registration the default. *)
Theorem percent_name_selects_first_row n w a rest :
  db_healthy w = true -> n <> "" -> all_percent n = true ->
  table w = a :: rest ->
  fst (ghl_set_default_account None (Some n) w)
  = Returned (text_response ("Default account set to " ++ dq ++ name a ++ dq
                               ++ " (" ++ id a ++ ")"))
  /\ table (snd (ghl_set_default_account None (Some n) w))
     = mark_default (id a) (clock w) (clear_defaults (table w)).
Proof.
  intros H Hn Hp Et.
  destruct (lookup_by_name_healthy n w H Hn) as [Ef Ett].
  assert (F : find (name_matcher n) (table w) = Some a).
  { rewrite Et. simpl. unfold name_matcher at 1.
    rewrite like_percents; [reflexivity | now apply all_percent_pattern | discriminate]. }
  now rewrite F in Ef, Ett.
Qed.

Lemma percent_name_selects_first_row_witness :
  fst (ghl_set_default_account None (Some "%") (world_of [smith; acme] []))
    = Returned (text_response ("Default account set to " ++ dq ++ name smith ++ dq
                                 ++ " (" ++ id smith ++ ")"))
  /\ table (snd (ghl_set_default_account None (Some "%") (world_of [smith; acme] [])))
     = mark_default (id smith) "2024-06-01 12:00:00" (clear_defaults [smith; acme]).
Proof.
  apply (percent_name_selects_first_row "%" (world_of [smith; acme] []) smith [acme]);
    [reflexivity | discriminate | reflexivity | reflexivity].
Defined.

(** X23. Along an execution made of tools other than the four that write
    the registry, the table never changes: every call resolves tenants
    against the registry the execution started from. *)
Theorem facade_calls_leave_registry env stringify calls w :
  Forall (fun nc => registry_tool (snd nc) = false \/ snd nc = ListSubAccounts) calls ->
  Forall (fun s => table (after s) = table w) (execution env stringify calls w).
Proof.
  revert w. induction calls as [|[now c] rest IH]; intros w Hc; simpl; [constructor|].
  inversion Hc as [|x xs Hx Hrest]; subst. simpl in Hx.
  assert (R : reads_only (handle env stringify c)).
  { destruct Hx as [Hx|Hx]; [now apply other_tools_read_only|].
    subst c. apply reads_only_list_sub_accounts. }
  specialize (R (eq (table w)) (set_clock now w) eq_refl).
  destruct (handle env stringify c (set_clock now w)) as [[r|e] w'];
    (constructor; [simpl; now symmetry|]);
    (assert (T : table w' = table w) by now symmetry);
    specialize (IH w' Hrest); rewrite T in IH; exact IH.
Qed.

Lemma facade_calls_leave_registry_witness :
  Forall (fun s => table (after s) = [acme; smith])
    (execution env0 compact
       [("2024-06-01 12:00:00", ListCustomValues None);
        ("2024-06-01 12:01:00", BulkCreateContactCustomFields three_fields (Some "loc_456"));
        ("2024-06-01 12:02:00", ListSubAccounts)]
       (world_of [acme; smith] [])).
Proof.
  apply (facade_calls_leave_registry env0 compact _ (world_of [acme; smith] [])).
  constructor; [now left|]. constructor; [now left|]. constructor; [now right|].
  constructor.
Defined.
